(** * tink-go: wrapped MAC, HMAC key manager, XChaCha20-Poly1305, key templates

  A shallow embedding of
    - package mac, [wrappedMAC.ComputeMAC] and [wrappedMAC.VerifyMAC]
      (second file of src/mac/mac_init_test.go);
    - package mac, [hmacKeyManager] (src/unnamed/part_000);
    - package aead/subtle, [XChaCha20Poly1305]
      (src/aead/subtle/xchacha20poly1305.go);
    - the key template factories of packages hybrid (src/unnamed/part_001),
      signature (src/unnamed/part_004) and daead
      (src/daead/daead_key_templates.go)
  and the properties the specification states about them.

  Byte slices are [list byte]; Go's [int], [uint32] and [int32] are [Z]
  with the wrap-around written where the source converts; a Go
  [(value, error)] pair is a [result]; calls on loggers and on the
  underlying primitives are recorded in a trace by a writer monad. *)

From Stdlib Require Import ZArith Lia.
From Stdlib Require Import Strings.String Strings.Byte.
From stdpp Require Import base option list strings gmap fin_maps.

Local Open Scope Z_scope.

(* ===================================================================== *)
(** ** Common vocabulary *)
(* ===================================================================== *)

Abbreviation bytes := (list byte).

(** Go's [len(b)] for a slice, as an [int]. *)
Definition len {A} (b : list A) : Z := Z.of_nat (length b).
Global Arguments len : simpl never.

(** Go's [error] values are compared only against [nil] in the code below;
  the message is kept so that the distinct failures can be told apart. *)
Definition error := string.

Inductive result (A : Type) : Type :=
| Ok (a : A)
| Err (e : error).
Arguments Ok {A} a.
Arguments Err {A} e.

Definition is_ok {A} (r : result A) : bool :=
match r with Ok _ => true | Err _ => false end.

(** [fmt.Errorf("<prefix>%s", err)] *)
Definition Errorf (prefix : string) (err : error) : error :=
String.append prefix err.

(** Outcome of a loop body that may [return] from the enclosing function:
  either the function returned [r], or control falls through with the
  loop-carried state [s]. *)
Inductive flow (R S : Type) : Type :=
| Return (r : R)
| Continue (s : S).
Arguments Return {R S} r.
Arguments Continue {R S} s.

(** The conversion [uint32(n)] of a non-negative [int]. *)
Definition uint32 (n : Z) : Z := n mod 2 ^ 32.

(* ===================================================================== *)
(** ** Package tinkpb: enumerations and messages of the keyset protos *)
(* ===================================================================== *)

Module tinkpb.

Inductive OutputPrefixType := TINK | LEGACY | CRUNCHY | RAW.

Global Instance OutputPrefixType_eq_dec : EqDecision OutputPrefixType.
Proof. solve_decision. Defined.

Inductive KeyStatusType := ENABLED | DISABLED | DESTROYED | UNKNOWN_STATUS.

Inductive KeyMaterialType :=
  UNKNOWN_KEYMATERIAL | SYMMETRIC | ASYMMETRIC_PRIVATE | ASYMMETRIC_PUBLIC | REMOTE.

Record KeyData := {
  KeyData_TypeUrl : string;
  KeyData_Value : bytes;
  KeyData_KeyMaterialType : KeyMaterialType
}.

Record KeyTemplate := {
  TypeUrl : string;
  Value : bytes;
  OutputPrefixType_ : OutputPrefixType
}.

End tinkpb.

(* ===================================================================== *)
(** ** Package tink: the MAC interface *)
(* ===================================================================== *)

Module tink.

(** [type MAC interface { ComputeMAC(data) ([]byte, error);
                          VerifyMAC(mac, data) error }] *)
Record MAC := {
  ComputeMAC : bytes -> result bytes;
  VerifyMAC : bytes -> bytes -> result unit
}.

End tink.

(* ===================================================================== *)
(** ** Package cryptofmt: the output prefix *)
(* ===================================================================== *)

Module cryptofmt.

(** Modelled from the spec: cryptofmt.NonRawPrefixSize is not among the
    sources; section 4.4 fixes [prefixSize = 5]. *)
Definition NonRawPrefixSize : Z := 5.

Definition byte_of_Z (z : Z) : byte :=
  default x00 (Byte.of_N (Z.to_N (Z.land z 255))).

Definition BigEndianUint32 (k : Z) : bytes :=
  [ byte_of_Z (Z.shiftr k 24); byte_of_Z (Z.shiftr k 16);
    byte_of_Z (Z.shiftr k 8); byte_of_Z k ].

(** Modelled from the spec: cryptofmt.OutputPrefix is not among the
    sources; section 4.5 gives the bytes for each prefix type. *)
Definition OutputPrefix (t : tinkpb.OutputPrefixType) (keyID : Z) : bytes :=
  match t with
  | tinkpb.TINK => x01 :: BigEndianUint32 keyID
  | tinkpb.LEGACY | tinkpb.CRUNCHY => x00 :: BigEndianUint32 keyID
  | tinkpb.RAW => []
  end.

End cryptofmt.

(* ===================================================================== *)
(** ** Package primitiveset *)
(* ===================================================================== *)

Module primitiveset.

Record Entry := {
  KeyID : Z;
  Primitive : tink.MAC;
  Prefix : bytes;
  PrefixType : tinkpb.OutputPrefixType;
  Status : tinkpb.KeyStatusType;
  TypeURL : string
}.

(** Modelled from the spec: the primitive set is not among the sources;
    section 3 describes it as a primary entry plus a mapping from prefix
    bytes to an ordered list of entries and a list of raw entries. *)
Record PrimitiveSet := {
  Primary : Entry;
  Entries : gmap string (list Entry);
  Raw : list Entry;
  Annotations : gmap string string
}.

(** Modelled from the spec: EntriesForPrefix is the lookup in the prefix
    mapping; a prefix without a bucket gives the empty list. *)
Definition EntriesForPrefix (ps : PrimitiveSet) (prefix : string)
  : result (list Entry) :=
  Ok (default [] (Entries ps !! prefix)).

(** Modelled from the spec: RawEntries is the list of raw entries. *)
Definition RawEntries (ps : PrimitiveSet) : result (list Entry) :=
  Ok (Raw ps).

End primitiveset.

(* ===================================================================== *)
(** ** Traces of observable calls *)
(* ===================================================================== *)

(** Writer monad over a trace of events of type [E]. *)
Definition W (E A : Type) : Type := A * list E.

Definition ret {E A} (a : A) : W E A := (a, []).

Definition bind {E A B} (m : W E A) (k : A -> W E B) : W E B :=
  let r := k (fst m) in
  (fst r, snd m ++ snd r).

Definition emit {E} (e : E) : W E unit := (tt, [e]).

Definition value {E A} (m : W E A) : A := fst m.
Definition trace {E A} (m : W E A) : list E := snd m.

Notation "'let*' x ':=' m 'in' k" := (bind m (fun x => k))
  (at level 10, x pattern, m at level 100, k at level 200).
Notation "m ';;' k" := (bind m (fun _ => k))
  (at level 100, k at level 200, right associativity).

(* ===================================================================== *)
(** ** Package monitoring: loggers *)
(* ===================================================================== *)

Module monitoring.

(** A logger is known by the API function it was created for
    ([createLoggers]: "compute" or "verify"). *)
Inductive Logger := computeLogger | verifyLogger.

(** What a call of the wrapped primitive does besides returning: calls of
    [Logger.Log], of [Logger.LogFailure], and of the two methods of an
    entry's primitive (named by the entry's key id). *)
Inductive Event :=
| Log (l : Logger) (keyID : Z) (numBytes : Z)
| LogFailure (l : Logger)
| PrimitiveComputeMAC (keyID : Z) (data : bytes)
| PrimitiveVerifyMAC (keyID : Z) (mac data : bytes).

Definition M := W Event.

End monitoring.

Import monitoring.

(* ===================================================================== *)
(** ** Package mac: the wrapped MAC *)
(* ===================================================================== *)

Module mac.

Import primitiveset.

(** [intSize = 32 << (^uint(0) >> 63)], for a platform whose [uint] has
    [uintBits] bits (so that [^uint(0)] is [Z.ones uintBits]). *)
Definition intSize (uintBits : Z) : Z :=
  Z.shiftl 32 (Z.shiftr (Z.ones uintBits) 63).

(** [maxInt = 1<<(intSize-1) - 1] *)
Definition maxInt (uintBits : Z) : Z :=
  Z.shiftl 1 (intSize uintBits - 1) - 1.

Global Arguments intSize : simpl never.
Global Arguments maxInt : simpl never.

Record wrappedMAC := {
  ps : PrimitiveSet;
  wm_computeLogger : Logger;
  wm_verifyLogger : Logger
}.

Definition errInvalidMAC : error := "mac_factory: invalid mac"%string.
Definition errDataTooLong : error := "mac_factory: data too long"%string.

(** A call of a primitive's method, recorded in the trace. *)
Definition callComputeMAC (e : Entry) (data : bytes) : M (result bytes) :=
  emit (PrimitiveComputeMAC (KeyID e) data) ;;
  ret (tink.ComputeMAC (Primitive e) data).

Definition callVerifyMAC (e : Entry) (mac data : bytes) : M (result unit) :=
  emit (PrimitiveVerifyMAC (KeyID e) mac data) ;;
  ret (tink.VerifyMAC (Primitive e) mac data).

Section Platform.

Variable uintBits : Z.

(** [func (m *wrappedMAC) ComputeMAC(data []byte) ([]byte, error)] *)
Definition ComputeMAC (m : wrappedMAC) (data : bytes) : M (result bytes) :=
  let primary := Primary (ps m) in
  let* f :=
    if decide (PrefixType (Primary (ps m)) = tinkpb.LEGACY) then
      let d := data in
      if maxInt uintBits <=? len d then
        emit (LogFailure (wm_computeLogger m)) ;;
        ret (Return errDataTooLong)
      else
        let data := [] in
        let data := data ++ d in
        let data := data ++ [x00] in
        ret (Continue data)
    else ret (Continue data) in
  match f with
  | Return e => ret (Err e)
  | Continue data =>
      let* r := callComputeMAC primary data in
      match r with
      | Err err =>
          emit (LogFailure (wm_computeLogger m)) ;;
          ret (Err err)
      | Ok mac =>
          emit (Log (wm_computeLogger m) (KeyID primary) (len data)) ;;
          if len (Prefix primary) =? 0 then ret (Ok mac)
          else
            let output := [] in
            let output := output ++ Prefix primary in
            let output := output ++ mac in
            ret (Ok output)
      end
  end.

(** The first loop of [VerifyMAC], over the entries filed under the prefix
    of the MAC. The variable [data] of the function is assigned in the
    body, so it is carried from one iteration to the next and out of the
    loop. *)
Fixpoint verifyNonRaw (m : wrappedMAC) (macNoPrefix : bytes)
    (entries : list Entry) (data : bytes) : M (flow (result unit) bytes) :=
  match entries with
  | [] => ret (Continue data)
  | entry :: rest =>
      let* f :=
        if decide (PrefixType entry = tinkpb.LEGACY) then
          let d := data in
          if maxInt uintBits <=? len d then
            emit (LogFailure (wm_verifyLogger m)) ;;
            ret (Return errDataTooLong)
          else
            let data := [] in
            let data := data ++ d in
            let data := data ++ [x00] in
            ret (Continue data)
        else ret (Continue data) in
      match f with
      | Return e => ret (Return (Err e))
      | Continue data =>
          let* r := callVerifyMAC entry macNoPrefix data in
          match r with
          | Ok _ =>
              emit (Log (wm_verifyLogger m) (KeyID entry) (len data)) ;;
              ret (Return (Ok tt))
          | Err _ => verifyNonRaw m macNoPrefix rest data
          end
      end
  end.

(** The second loop of [VerifyMAC], over the raw entries. *)
Fixpoint verifyRaw (m : wrappedMAC) (mac data : bytes)
    (entries : list Entry) : M (flow (result unit) unit) :=
  match entries with
  | [] => ret (Continue tt)
  | entry :: rest =>
      let* r := callVerifyMAC entry mac data in
      match r with
      | Ok _ =>
          emit (Log (wm_verifyLogger m) (KeyID entry) (len data)) ;;
          ret (Return (Ok tt))
      | Err _ => verifyRaw m mac data rest
      end
  end.

(** [func (m *wrappedMAC) VerifyMAC(mac, data []byte) error] *)
Definition VerifyMAC (m : wrappedMAC) (mac data : bytes) : M (result unit) :=
  let prefixSize := cryptofmt.NonRawPrefixSize in
  if len mac <=? prefixSize then
    emit (LogFailure (wm_verifyLogger m)) ;;
    ret (Err errInvalidMAC)
  else
    (* try non raw keys *)
    let prefix := take (Z.to_nat prefixSize) mac in
    let macNoPrefix := drop (Z.to_nat prefixSize) mac in
    let* f :=
      match EntriesForPrefix (ps m) (string_of_list_byte prefix) with
      | Ok entries => verifyNonRaw m macNoPrefix entries data
      | Err _ => ret (Continue data)
      end in
    match f with
    | Return r => ret r
    | Continue data =>
        (* try raw keys *)
        let* f :=
          match RawEntries (ps m) with
          | Ok entries => verifyRaw m mac data entries
          | Err _ => ret (Continue tt)
          end in
        match f with
        | Return r => ret r
        | Continue _ =>
            (* nothing worked *)
            emit (LogFailure (wm_verifyLogger m)) ;;
            ret (Err errInvalidMAC)
        end
    end.

End Platform.

End mac.

(* ===================================================================== *)
(** ** External collaborators: proto, random, io, keyset *)
(* ===================================================================== *)

(** [proto.Marshal] and [proto.Unmarshal] for a message type; the wire
    format itself is outside the code under study. *)
Class ProtoMessage (T : Type) := {
  Marshal : T -> result bytes;
  Unmarshal : bytes -> result T
}.

(** Modelled from the spec: the random source is not among the sources;
    it produces bytes of the requested length. The state of the generator
    is threaded explicitly. *)
Class RandomSource := {
  Rand : Type;
  GetRandomBytes : Z -> Rand -> bytes * Rand;
  GetRandomBytes_len : forall n s, 0 <= n -> len (GetRandomBytes n s).1 = n
}.

Module io.

(** An [io.Reader], given by the bytes it yields before end of file. *)
Definition Reader := bytes.

Definition ErrUnexpectedEOF : error := "unexpected EOF"%string.

(** [io.ReadFull(r, buf)] with [len(buf) = n]: exactly [n] bytes, or an
    error when the reader yields fewer. *)
Definition ReadFull (r : Reader) (n : Z) : result bytes * Reader :=
  if n <=? len r
  then (Ok (take (Z.to_nat n) r), drop (Z.to_nat n) r)
  else (Err ErrUnexpectedEOF, []).

End io.

Module keyset.

(** Modelled from the spec: keyset.ValidateKeyVersion is not among the
    sources; a version above the maximum expected one is rejected
    ("Version is 0; rejects any higher value"). *)
Definition ValidateKeyVersion (version maxExpected : Z) : result unit :=
  if maxExpected <? version
  then Err "key has unsupported version"%string
  else Ok tt.

End keyset.

(* ===================================================================== *)
(** ** Package hmacpb: the HMAC protos *)
(* ===================================================================== *)

Module hmacpb.

Record HmacParams := {
  Hash : Z;         (* commonpb.HashType, an int32 enum *)
  TagSize : Z       (* uint32 *)
}.

Record HmacKeyFormat := {
  Format_Params : option HmacParams;   (* a pointer, possibly nil *)
  KeySize : Z;                         (* uint32 *)
  Format_Version : Z                   (* uint32 *)
}.

Record HmacKey := {
  Version : Z;                         (* uint32 *)
  Params : option HmacParams;
  KeyValue : bytes
}.

(** The generated getters are nil-safe and give the zero value. *)
Definition GetHash (p : option HmacParams) : Z :=
  match p with Some p => Hash p | None => 0 end.

Definition GetTagSize (p : option HmacParams) : Z :=
  match p with Some p => TagSize p | None => 0 end.

End hmacpb.

(* ===================================================================== *)
(** ** Package mac: the HMAC key manager *)
(* ===================================================================== *)

Module hmacKeyManager.

Import hmacpb.

Definition hmacKeyVersion : Z := 0.
Definition hmacTypeURL : string :=
  "type.googleapis.com/google.crypto.tink.HmacKey"%string.

Definition errInvalidHMACKey : error := "hmac_key_manager: invalid key"%string.
Definition errInvalidHMACKeyFormat : error :=
  "hmac_key_manager: invalid key format"%string.

Section KeyManager.

Context `{ProtoMessage HmacKey} `{ProtoMessage HmacKeyFormat}.
Context `{RS : RandomSource}.

(** The table [commonpb.HashType_name]; a missing index gives the empty
    string. *)
Variable HashType_name : Z -> string.

(** [subtle.ValidateHMACParams(hash, keySize, tagSize)] and
    [subtle.NewHMAC(hash, key, tagSize)] of package mac/subtle. *)
Variable ValidateHMACParams : string -> Z -> Z -> result unit.
Variable NewHMAC : string -> bytes -> Z -> result tink.MAC.

(** [func (km *hmacKeyManager) validateKey(key *hmacpb.HmacKey) error] *)
Definition validateKey (key : HmacKey) : result unit :=
  match keyset.ValidateKeyVersion (Version key) hmacKeyVersion with
  | Err err => Err (Errorf "hmac_key_manager: invalid version: " err)
  | Ok _ =>
      let keySize := uint32 (len (KeyValue key)) in
      let hash := HashType_name (GetHash (Params key)) in
      ValidateHMACParams hash keySize (GetTagSize (Params key))
  end.

(** [func (km *hmacKeyManager) validateKeyFormat(format *hmacpb.HmacKeyFormat) error] *)
Definition validateKeyFormat (format : HmacKeyFormat) : result unit :=
  let hash := HashType_name (GetHash (Format_Params format)) in
  ValidateHMACParams hash (KeySize format) (GetTagSize (Format_Params format)).

(** [func (km *hmacKeyManager) Primitive(serializedKey []byte) (interface{}, error)] *)
Definition Primitive (serializedKey : bytes) : result tink.MAC :=
  if len serializedKey =? 0 then Err errInvalidHMACKey
  else
    match Unmarshal serializedKey with
    | Err _ => Err errInvalidHMACKey
    | Ok key =>
        match validateKey key with
        | Err err => Err err
        | Ok _ =>
            let hash := HashType_name (GetHash (Params key)) in
            match NewHMAC hash (KeyValue key) (GetTagSize (Params key)) with
            | Err err => Err err
            | Ok hmac => Ok hmac
            end
        end
    end.

(** [func (km *hmacKeyManager) NewKey(serializedKeyFormat []byte) (proto.Message, error)] *)
Definition NewKey (serializedKeyFormat : bytes) (s : Rand)
    : result HmacKey * Rand :=
  if len serializedKeyFormat =? 0 then (Err errInvalidHMACKeyFormat, s)
  else
    match Unmarshal serializedKeyFormat with
    | Err _ => (Err errInvalidHMACKeyFormat, s)
    | Ok keyFormat =>
        match validateKeyFormat keyFormat with
        | Err err =>
            (Err (Errorf "hmac_key_manager: invalid key format: " err), s)
        | Ok _ =>
            let (keyValue, s) := GetRandomBytes (KeySize keyFormat) s in
            (Ok {| Version := hmacKeyVersion;
                   Params := Format_Params keyFormat;
                   KeyValue := keyValue |}, s)
        end
    end.

(** [func (km *hmacKeyManager) KeyMaterialType() tinkpb.KeyData_KeyMaterialType] *)
Definition KeyMaterialType : tinkpb.KeyMaterialType := tinkpb.SYMMETRIC.

(** [func (km *hmacKeyManager) NewKeyData(serializedKeyFormat []byte)], returning a KeyData and an error *)
Definition NewKeyData (serializedKeyFormat : bytes) (s : Rand)
    : result tinkpb.KeyData * Rand :=
  let (r, s) := NewKey serializedKeyFormat s in
  match r with
  | Err err => (Err err, s)
  | Ok key =>
      match Marshal key with
      | Err _ => (Err errInvalidHMACKeyFormat, s)
      | Ok serializedKey =>
          (Ok {| tinkpb.KeyData_TypeUrl := hmacTypeURL;
                 tinkpb.KeyData_Value := serializedKey;
                 tinkpb.KeyData_KeyMaterialType := KeyMaterialType |}, s)
      end
  end.

(** [func (km *hmacKeyManager) DoesSupport(typeURL string) bool] *)
Definition DoesSupport (typeURL : string) : bool :=
  bool_decide (typeURL = hmacTypeURL).

(** [func (km *hmacKeyManager) TypeURL() string] *)
Definition TypeURL : string := hmacTypeURL.

(** [func (km *hmacKeyManager) DeriveKey(serializedKeyFormat []byte,
      pseudorandomness io.Reader) (proto.Message, error)] *)
Definition DeriveKey (serializedKeyFormat : bytes)
    (pseudorandomness : io.Reader) : result HmacKey * io.Reader :=
  if len serializedKeyFormat =? 0
  then (Err errInvalidHMACKeyFormat, pseudorandomness)
  else
    match Unmarshal serializedKeyFormat with
    | Err _ => (Err errInvalidHMACKeyFormat, pseudorandomness)
    | Ok keyFormat =>
        match validateKeyFormat keyFormat with
        | Err err =>
            (Err (Errorf "hmac_key_manager: invalid key format: " err),
             pseudorandomness)
        | Ok _ =>
            match keyset.ValidateKeyVersion (Format_Version keyFormat)
                    hmacKeyVersion with
            | Err err =>
                (Err (Errorf "hmac_key_manager: invalid key version: " err),
                 pseudorandomness)
            | Ok _ =>
                match io.ReadFull pseudorandomness (KeySize keyFormat) with
                | (Err _, r) =>
                    (Err "hmac_key_manager: not enough pseudorandomness given"%string, r)
                | (Ok keyValue, r) =>
                    (Ok {| Version := hmacKeyVersion;
                           Params := Format_Params keyFormat;
                           KeyValue := keyValue |}, r)
                end
            end
        end
    end.

(** A serialized key format that [DeriveKey] and [NewKey] parse and whose
    parameters pass [validateKeyFormat]. *)
Definition parsesTo (serializedKeyFormat : bytes) (keyFormat : HmacKeyFormat)
    : Prop :=
  serializedKeyFormat <> []
  /\ Unmarshal serializedKeyFormat = Ok keyFormat
  /\ validateKeyFormat keyFormat = Ok tt.

(** A serialized key format that [NewKey], [NewKeyData] and [DeriveKey]
    all refuse: empty, not parsed, or with parameters that
    [validateKeyFormat] rejects. *)
Definition rejectedFormat (serializedKeyFormat : bytes) : Prop :=
  serializedKeyFormat = []
  \/ (exists e, Unmarshal (T := HmacKeyFormat) serializedKeyFormat = Err e)
  \/ (exists keyFormat e,
        Unmarshal serializedKeyFormat = Ok keyFormat
        /\ validateKeyFormat keyFormat = Err e).

End KeyManager.

End hmacKeyManager.

(* ===================================================================== *)
(** ** golang.org/x/crypto/chacha20poly1305 *)
(* ===================================================================== *)

Module chacha20poly1305.

Definition KeySize : Z := 32.
Definition NonceSizeX : Z := 24.
Definition Overhead_ : Z := 16.

(** A [cipher.AEAD]: [Seal(dst, nonce, plaintext, additionalData)] and
    [Open(dst, nonce, ciphertext, additionalData)]. *)
Record AEAD := {
  Seal : bytes -> bytes -> bytes -> bytes -> bytes;
  Open : bytes -> bytes -> bytes -> bytes -> result bytes;
  Overhead : Z
}.

End chacha20poly1305.

(* ===================================================================== *)
(** ** Package aead/subtle: XChaCha20Poly1305 *)
(* ===================================================================== *)

Module xchacha.

Import chacha20poly1305.

(** Modelled from the spec: the constant poly1305TagSize of the package is
    not among the sources; the Poly1305 tag has 16 bytes. *)
Definition poly1305TagSize : Z := 16.

(** Modelled from the spec: the constant maxInt of the package is not
    among the sources; it is the largest [int], defined as in package
    mac. *)
Definition maxInt (uintBits : Z) : Z := mac.maxInt uintBits.
Global Arguments maxInt : simpl never.

Record XChaCha20Poly1305 := { Key : bytes }.

(** Calls on the underlying cipher. *)
Inductive Event :=
| CallNewX (key : bytes)
| CallSeal (dst nonce plaintext additionalData : bytes)
| CallOpen (dst nonce ciphertext additionalData : bytes).


Section Cipher.

Variable uintBits : Z.
Context `{RS : RandomSource}.

(** [chacha20poly1305.NewX(key)] *)
Variable NewX : bytes -> result AEAD.

Definition callNewX (key : bytes) : W Event (result AEAD) :=
  emit (CallNewX key) ;; ret (NewX key).

Definition callSeal (c : AEAD) (dst nonce plaintext ad : bytes)
    : W Event bytes :=
  emit (CallSeal dst nonce plaintext ad) ;; ret (Seal c dst nonce plaintext ad).

Definition callOpen (c : AEAD) (dst nonce ciphertext ad : bytes)
    : W Event (result bytes) :=
  emit (CallOpen dst nonce ciphertext ad) ;; ret (Open c dst nonce ciphertext ad).

(** [func (x *XChaCha20Poly1305) Encrypt(plaintext, associatedData []byte) ([]byte, error)] *)
Definition Encrypt (x : XChaCha20Poly1305) (plaintext associatedData : bytes)
    (s : Rand) : W Event (result bytes * Rand) :=
  if maxInt uintBits - NonceSizeX - poly1305TagSize <? len plaintext then
    ret (Err "xchacha20poly1305: plaintext too long"%string, s)
  else
    let* r := callNewX (Key x) in
    match r with
    | Err err => ret (Err err, s)
    | Ok c =>
        let (nounce, s) := GetRandomBytes NonceSizeX s in
        let dst := [] in
        let dst := dst ++ nounce in
        let* out := callSeal c dst nounce plaintext associatedData in
        ret (Ok out, s)
    end.

(** [func (x *XChaCha20Poly1305) Decrypt(ciphertext, associatedData []byte) ([]byte, error)] *)
Definition Decrypt (x : XChaCha20Poly1305) (ciphertext associatedData : bytes)
    : W Event (result bytes) :=
  if len ciphertext <? NonceSizeX + poly1305TagSize then
    ret (Err "xchacha20poly1305: ciphertext too short"%string)
  else
    let* r := callNewX (Key x) in
    match r with
    | Err err => ret (Err err)
    | Ok c =>
        let n := take (Z.to_nat NonceSizeX) ciphertext in
        let* r := callOpen c [] n (drop (Z.to_nat NonceSizeX) ciphertext)
                    associatedData in
        match r with
        | Err err => ret (Err (Errorf "XChaCha20Poly1305.Decrypt: " err))
        | Ok pt => ret (Ok pt)
        end
    end.

End Cipher.

End xchacha.

(* ===================================================================== *)
(** ** Key templates: hybrid, signature and daead *)
(* ===================================================================== *)

Module tinkerror.

(** A computation that may end the process. *)
Inductive outcome (A : Type) : Type :=
| Done (a : A)
| Fatal (msg : string).
Arguments Done {A} a.
Arguments Fatal {A} msg.

Definition andThen {A B} (o : outcome A) (k : A -> outcome B) : outcome B :=
  match o with
  | Done a => k a
  | Fatal msg => Fatal msg
  end.

(** Modelled from the spec: tinkerror.Fail is not among the sources; a
    serialization failure is fatal to the process, so [Fail] does not
    return. *)
Definition Fail (msg : string) : outcome unit := Fatal msg.

End tinkerror.

Module commonpb.

Inductive HashType := UNKNOWN_HASH | SHA1 | SHA384 | SHA256 | SHA512 | SHA224.
Inductive EllipticCurveType := NIST_P256 | NIST_P384 | NIST_P521.
Inductive EcPointFormat := UNCOMPRESSED | COMPRESSED.

End commonpb.

Module hpkepb.

Inductive HpkeKem := DHKEM_P256_HKDF_SHA256 | DHKEM_X25519_HKDF_SHA256.
Inductive HpkeKdf := HKDF_SHA256.
Inductive HpkeAead := AES_128_GCM | AES_256_GCM | CHACHA20_POLY1305.

Record HpkeParams := { Kem : HpkeKem; Kdf : HpkeKdf; Aead : HpkeAead }.
Record HpkeKeyFormat := { Params : option HpkeParams }.

End hpkepb.

Module eciespb.

Record EciesHkdfKemParams := {
  CurveType : commonpb.EllipticCurveType;
  HkdfHashType : commonpb.HashType;
  HkdfSalt : bytes
}.
Record EciesAeadDemParams := { AeadDem : tinkpb.KeyTemplate }.
Record EciesAeadHkdfParams := {
  KemParams : EciesHkdfKemParams;
  DemParams : EciesAeadDemParams;
  EcPointFormat_ : commonpb.EcPointFormat
}.
Record EciesAeadHkdfKeyFormat := { Params : option EciesAeadHkdfParams }.

End eciespb.

Module ecdsapb.

Inductive EcdsaSignatureEncoding := DER | IEEE_P1363.
Record EcdsaParams := {
  HashType_ : commonpb.HashType;
  Curve : commonpb.EllipticCurveType;
  Encoding : EcdsaSignatureEncoding
}.
Record EcdsaKeyFormat := { Params : option EcdsaParams }.

End ecdsapb.

Module rsppb.

Record RsaSsaPkcs1Params := { HashType_ : commonpb.HashType }.
Record RsaSsaPkcs1KeyFormat := {
  Params : option RsaSsaPkcs1Params;
  ModulusSizeInBits : Z;
  PublicExponent : bytes
}.

End rsppb.

Module rspsspb.

Record RsaSsaPssParams := {
  SigHash : commonpb.HashType;
  Mgf1Hash : commonpb.HashType;
  SaltLength : Z
}.
Record RsaSsaPssKeyFormat := {
  Params : option RsaSsaPssParams;
  ModulusSizeInBits : Z;
  PublicExponent : bytes
}.

End rspsspb.

Module aspb.

Record AesSivKeyFormat := { KeySize : Z; Version : Z }.

End aspb.

Module templates.

Import tinkerror.

Notation "'do' x '<-' o ';' k" := (andThen o (fun x => k))
  (at level 10, x pattern, o at level 100, k at level 200).

(** The two results of [serializedFormat, err := proto.Marshal(format)]:
    the slice is nil when the error is not. *)
Definition bytesOf (r : result bytes) : bytes :=
  match r with Ok b => b | Err _ => [] end.

(** [if err != nil { tinkerror.Fail(fmt.Sprintf("failed to marshal key format: %s", err)) }] *)
Definition failOnError (r : result bytes) : outcome unit :=
  match r with
  | Err err => Fail (Errorf "failed to marshal key format: " err)
  | Ok _ => Done tt
  end.

(** What a factory does with the result of [proto.Marshal]: the process
    ends on an error, and otherwise the template carries the type URL, the
    serialized format and the prefix type. *)
Definition templateOf (typeURL : string) (serialized : result bytes)
    (prefixType : tinkpb.OutputPrefixType) : outcome tinkpb.KeyTemplate :=
  match serialized with
  | Err err => Fatal (Errorf "failed to marshal key format: " err)
  | Ok serializedFormat =>
      Done {| tinkpb.TypeUrl := typeURL;
              tinkpb.Value := serializedFormat;
              tinkpb.OutputPrefixType_ := prefixType |}
  end.

(** A factory's outcome with the prefix type of the template replaced. *)
Definition withPrefix (t : tinkpb.OutputPrefixType)
    (o : outcome tinkpb.KeyTemplate) : outcome tinkpb.KeyTemplate :=
  match o with
  | Done tpl =>
      Done {| tinkpb.TypeUrl := tinkpb.TypeUrl tpl;
              tinkpb.Value := tinkpb.Value tpl;
              tinkpb.OutputPrefixType_ := t |}
  | Fatal msg => Fatal msg
  end.

Section Factories.

Context `{ProtoMessage hpkepb.HpkeKeyFormat}.
Context `{ProtoMessage eciespb.EciesAeadHkdfKeyFormat}.
Context `{ProtoMessage ecdsapb.EcdsaKeyFormat}.
Context `{ProtoMessage rsppb.RsaSsaPkcs1KeyFormat}.
Context `{ProtoMessage rspsspb.RsaSsaPssKeyFormat}.
Context `{ProtoMessage aspb.AesSivKeyFormat}.

(** The constant hpkePrivateKeyTypeURL of package hybrid. *)
Variable hpkePrivateKeyTypeURL : string.

Definition ed25519SignerTypeURL : string :=
  "type.googleapis.com/google.crypto.tink.Ed25519PrivateKey"%string.
Definition ecdsaSignerTypeURL : string :=
  "type.googleapis.com/google.crypto.tink.EcdsaPrivateKey"%string.
Definition rsaSSAPKCS1SignerTypeURL : string :=
  "type.googleapis.com/google.crypto.tink.RsaSsaPkcs1PrivateKey"%string.
Definition rsaSSAPSSSignerTypeURL : string :=
  "type.googleapis.com/google.crypto.tink.RsaSsaPssPrivateKey"%string.
Definition eciesPrivateKeyTypeURL : string :=
  "type.googleapis.com/google.crypto.tink.EciesAeadHkdfPrivateKey"%string.
Definition aesSivTypeURL : string :=
  "type.googleapis.com/google.crypto.tink.AesSivKey"%string.

(** hybrid: [createHPKEKeyTemplate(kem, kdf, aead, outputPrefixType)] *)
Definition createHPKEKeyTemplate (kem : hpkepb.HpkeKem) (kdf : hpkepb.HpkeKdf)
    (aead : hpkepb.HpkeAead) (outputPrefixType : tinkpb.OutputPrefixType)
    : outcome tinkpb.KeyTemplate :=
  let format := {| hpkepb.Params :=
                     Some {| hpkepb.Kem := kem; hpkepb.Kdf := kdf;
                             hpkepb.Aead := aead |} |} in
  let r := Marshal format in
  let serializedFormat := bytesOf r in
  do _ <- failOnError r;
  Done {| tinkpb.TypeUrl := hpkePrivateKeyTypeURL;
          tinkpb.Value := serializedFormat;
          tinkpb.OutputPrefixType_ := outputPrefixType |}.

Definition DHKEM_P256_HKDF_SHA256_HKDF_SHA256_AES_128_GCM_Key_Template :=
  createHPKEKeyTemplate hpkepb.DHKEM_P256_HKDF_SHA256 hpkepb.HKDF_SHA256
    hpkepb.AES_128_GCM tinkpb.TINK.

Definition DHKEM_X25519_HKDF_SHA256_HKDF_SHA256_CHACHA20_POLY1305_Raw_Key_Template :=
  createHPKEKeyTemplate hpkepb.DHKEM_X25519_HKDF_SHA256 hpkepb.HKDF_SHA256
    hpkepb.CHACHA20_POLY1305 tinkpb.RAW.

(** hybrid: [createECIESAEADHKDFKeyTemplate(c, ht, ptfmt, dekT, salt)] *)
Definition createECIESAEADHKDFKeyTemplate (c : commonpb.EllipticCurveType)
    (ht : commonpb.HashType) (ptfmt : commonpb.EcPointFormat)
    (dekT : tinkpb.KeyTemplate) (salt : bytes) : outcome tinkpb.KeyTemplate :=
  let format := {| eciespb.Params := Some {|
      eciespb.KemParams := {| eciespb.CurveType := c;
                              eciespb.HkdfHashType := ht;
                              eciespb.HkdfSalt := salt |};
      eciespb.DemParams := {| eciespb.AeadDem := dekT |};
      eciespb.EcPointFormat_ := ptfmt |} |} in
  let r := Marshal format in
  let serializedFormat := bytesOf r in
  do _ <- failOnError r;
  Done {| tinkpb.TypeUrl := eciesPrivateKeyTypeURL;
          tinkpb.Value := serializedFormat;
          tinkpb.OutputPrefixType_ := tinkpb.TINK |}.

(** signature: [createECDSAKeyTemplate(hashType, curve, encoding, prefixType)] *)
Definition createECDSAKeyTemplate (hashType : commonpb.HashType)
    (curve : commonpb.EllipticCurveType)
    (encoding : ecdsapb.EcdsaSignatureEncoding)
    (prefixType : tinkpb.OutputPrefixType) : outcome tinkpb.KeyTemplate :=
  let params := {| ecdsapb.HashType_ := hashType; ecdsapb.Curve := curve;
                   ecdsapb.Encoding := encoding |} in
  let format := {| ecdsapb.Params := Some params |} in
  let r := Marshal format in
  let serializedFormat := bytesOf r in
  do _ <- failOnError r;
  Done {| tinkpb.TypeUrl := ecdsaSignerTypeURL;
          tinkpb.Value := serializedFormat;
          tinkpb.OutputPrefixType_ := prefixType |}.

Definition ECDSAP256KeyTemplate :=
  createECDSAKeyTemplate commonpb.SHA256 commonpb.NIST_P256 ecdsapb.DER
    tinkpb.TINK.

Definition ECDSAP256RawKeyTemplate :=
  createECDSAKeyTemplate commonpb.SHA256 commonpb.NIST_P256
    ecdsapb.IEEE_P1363 tinkpb.RAW.

(** signature: [ED25519KeyTemplate] and [ED25519KeyWithoutPrefixTemplate]
    serialize nothing: the template has no [Value]. *)
Definition ED25519KeyTemplate : outcome tinkpb.KeyTemplate :=
  Done {| tinkpb.TypeUrl := ed25519SignerTypeURL;
          tinkpb.Value := [];
          tinkpb.OutputPrefixType_ := tinkpb.TINK |}.

Definition ED25519KeyWithoutPrefixTemplate : outcome tinkpb.KeyTemplate :=
  Done {| tinkpb.TypeUrl := ed25519SignerTypeURL;
          tinkpb.Value := [];
          tinkpb.OutputPrefixType_ := tinkpb.RAW |}.

(** signature: [create_RSA_SSA_PKCS1_Template(prefixType, hashType, modulusSizeInBits)] *)
Definition create_RSA_SSA_PKCS1_Template (prefixType : tinkpb.OutputPrefixType)
    (hashType : commonpb.HashType) (modulusSizeInBits : Z)
    : outcome tinkpb.KeyTemplate :=
  let keyFormat := {|
      rsppb.Params := Some {| rsppb.HashType_ := hashType |};
      rsppb.ModulusSizeInBits := modulusSizeInBits;
      rsppb.PublicExponent := [x01; x00; x01] |} in
  let r := Marshal keyFormat in
  let serializedFormat := bytesOf r in
  do _ <- failOnError r;
  Done {| tinkpb.TypeUrl := rsaSSAPKCS1SignerTypeURL;
          tinkpb.Value := serializedFormat;
          tinkpb.OutputPrefixType_ := prefixType |}.

(** signature: [create_RSA_SSA_PSS_Template(prefixType, hashType, saltLength, modulusSizeInBits)] *)
Definition create_RSA_SSA_PSS_Template (prefixType : tinkpb.OutputPrefixType)
    (hashType : commonpb.HashType) (saltLength modulusSizeInBits : Z)
    : outcome tinkpb.KeyTemplate :=
  let keyFormat := {|
      rspsspb.Params := Some {| rspsspb.SigHash := hashType;
                                rspsspb.Mgf1Hash := hashType;
                                rspsspb.SaltLength := saltLength |};
      rspsspb.ModulusSizeInBits := modulusSizeInBits;
      rspsspb.PublicExponent := [x01; x00; x01] |} in
  let r := Marshal keyFormat in
  let serializedFormat := bytesOf r in
  do _ <- failOnError r;
  Done {| tinkpb.TypeUrl := rsaSSAPSSSignerTypeURL;
          tinkpb.Value := serializedFormat;
          tinkpb.OutputPrefixType_ := prefixType |}.

Definition RSA_SSA_PKCS1_3072_SHA256_F4_Key_Template :=
  create_RSA_SSA_PKCS1_Template tinkpb.TINK commonpb.SHA256 3072.

Definition RSA_SSA_PSS_4096_SHA512_64_F4_Raw_Key_Template :=
  create_RSA_SSA_PSS_Template tinkpb.RAW commonpb.SHA512 64 4096.

(** daead: [AESSIVKeyTemplate()] *)
Definition AESSIVKeyTemplate : outcome tinkpb.KeyTemplate :=
  let format := {| aspb.KeySize := 64; aspb.Version := 0 |} in
  let r := Marshal format in
  let serializedFormat := bytesOf r in
  do _ <- failOnError r;
  Done {| tinkpb.TypeUrl := aesSivTypeURL;
          tinkpb.Value := serializedFormat;
          tinkpb.OutputPrefixType_ := tinkpb.TINK |}.

(** hybrid: the other HPKE templates. *)
Definition DHKEM_P256_HKDF_SHA256_HKDF_SHA256_AES_128_GCM_Raw_Key_Template :=
  createHPKEKeyTemplate hpkepb.DHKEM_P256_HKDF_SHA256 hpkepb.HKDF_SHA256
    hpkepb.AES_128_GCM tinkpb.RAW.

Definition DHKEM_P256_HKDF_SHA256_HKDF_SHA256_AES_256_GCM_Key_Template :=
  createHPKEKeyTemplate hpkepb.DHKEM_P256_HKDF_SHA256 hpkepb.HKDF_SHA256
    hpkepb.AES_256_GCM tinkpb.TINK.

Definition DHKEM_P256_HKDF_SHA256_HKDF_SHA256_AES_256_GCM_Raw_Key_Template :=
  createHPKEKeyTemplate hpkepb.DHKEM_P256_HKDF_SHA256 hpkepb.HKDF_SHA256
    hpkepb.AES_256_GCM tinkpb.RAW.

Definition DHKEM_X25519_HKDF_SHA256_HKDF_SHA256_AES_128_GCM_Key_Template :=
  createHPKEKeyTemplate hpkepb.DHKEM_X25519_HKDF_SHA256 hpkepb.HKDF_SHA256
    hpkepb.AES_128_GCM tinkpb.TINK.

Definition DHKEM_X25519_HKDF_SHA256_HKDF_SHA256_AES_128_GCM_Raw_Key_Template :=
  createHPKEKeyTemplate hpkepb.DHKEM_X25519_HKDF_SHA256 hpkepb.HKDF_SHA256
    hpkepb.AES_128_GCM tinkpb.RAW.

Definition DHKEM_X25519_HKDF_SHA256_HKDF_SHA256_AES_256_GCM_Key_Template :=
  createHPKEKeyTemplate hpkepb.DHKEM_X25519_HKDF_SHA256 hpkepb.HKDF_SHA256
    hpkepb.AES_256_GCM tinkpb.TINK.

Definition DHKEM_X25519_HKDF_SHA256_HKDF_SHA256_AES_256_GCM_Raw_Key_Template :=
  createHPKEKeyTemplate hpkepb.DHKEM_X25519_HKDF_SHA256 hpkepb.HKDF_SHA256
    hpkepb.AES_256_GCM tinkpb.RAW.

Definition DHKEM_X25519_HKDF_SHA256_HKDF_SHA256_CHACHA20_POLY1305_Key_Template :=
  createHPKEKeyTemplate hpkepb.DHKEM_X25519_HKDF_SHA256 hpkepb.HKDF_SHA256
    hpkepb.CHACHA20_POLY1305 tinkpb.TINK.

(** signature: the other ECDSA templates. *)
Definition ECDSAP256KeyWithoutPrefixTemplate :=
  createECDSAKeyTemplate commonpb.SHA256 commonpb.NIST_P256 ecdsapb.DER
    tinkpb.RAW.

Definition ECDSAP384SHA384KeyTemplate :=
  createECDSAKeyTemplate commonpb.SHA384 commonpb.NIST_P384 ecdsapb.DER
    tinkpb.TINK.

Definition ECDSAP384SHA384KeyWithoutPrefixTemplate :=
  createECDSAKeyTemplate commonpb.SHA384 commonpb.NIST_P384 ecdsapb.DER
    tinkpb.RAW.

Definition ECDSAP384SHA512KeyTemplate :=
  createECDSAKeyTemplate commonpb.SHA512 commonpb.NIST_P384 ecdsapb.DER
    tinkpb.TINK.

Definition ECDSAP384KeyWithoutPrefixTemplate :=
  createECDSAKeyTemplate commonpb.SHA512 commonpb.NIST_P384 ecdsapb.DER
    tinkpb.RAW.

Definition ECDSAP521KeyTemplate :=
  createECDSAKeyTemplate commonpb.SHA512 commonpb.NIST_P521 ecdsapb.DER
    tinkpb.TINK.

Definition ECDSAP521KeyWithoutPrefixTemplate :=
  createECDSAKeyTemplate commonpb.SHA512 commonpb.NIST_P521 ecdsapb.DER
    tinkpb.RAW.

(** signature: the other RSA templates. *)
Definition RSA_SSA_PKCS1_3072_SHA256_F4_RAW_Key_Template :=
  create_RSA_SSA_PKCS1_Template tinkpb.RAW commonpb.SHA256 3072.

Definition RSA_SSA_PKCS1_4096_SHA512_F4_Key_Template :=
  create_RSA_SSA_PKCS1_Template tinkpb.TINK commonpb.SHA512 4096.

Definition RSA_SSA_PKCS1_4096_SHA512_F4_RAW_Key_Template :=
  create_RSA_SSA_PKCS1_Template tinkpb.RAW commonpb.SHA512 4096.

Definition RSA_SSA_PSS_3072_SHA256_32_F4_Key_Template :=
  create_RSA_SSA_PSS_Template tinkpb.TINK commonpb.SHA256 32 3072.

Definition RSA_SSA_PSS_3072_SHA256_32_F4_Raw_Key_Template :=
  create_RSA_SSA_PSS_Template tinkpb.RAW commonpb.SHA256 32 3072.

Definition RSA_SSA_PSS_4096_SHA512_64_F4_Key_Template :=
  create_RSA_SSA_PSS_Template tinkpb.TINK commonpb.SHA512 64 4096.

End Factories.

End templates.

(* ===================================================================== *)
(** ** Well-formed primitive sets and the contract of a MAC *)
(* ===================================================================== *)

Module invariants.

Import primitiveset.

(** All the entries of a primitive set: those of every bucket, then the
    raw ones. *)
Definition allEntries (ps : PrimitiveSet) : list Entry :=
  concat (map_to_list (Entries ps)).*2 ++ Raw ps.

(** The invariants section 3 of the specification states for a primitive
    set built from a keyset. *)
Record WellFormed (ps : PrimitiveSet) : Prop := {
  (* every entry's prefix is determined by its prefix type and key id *)
  wf_prefix : forall e, e ∈ allEntries ps ->
    Prefix e = cryptofmt.OutputPrefix (PrefixType e) (KeyID e);
  (* key ids are uint32 values, unique within the keyset *)
  wf_keyID_range : forall e, e ∈ allEntries ps -> 0 <= KeyID e < 2 ^ 32;
  wf_keyID_unique : NoDup (KeyID <$> allEntries ps);
  (* a non-raw entry is filed under its prefix, a raw one in the raw list *)
  wf_bucket : forall k l e, Entries ps !! k = Some l -> e ∈ l ->
    PrefixType e <> tinkpb.RAW /\ k = string_of_list_byte (Prefix e);
  wf_raw : forall e, e ∈ Raw ps -> PrefixType e = tinkpb.RAW;
  (* only enabled keys appear, and the primary is one of them *)
  wf_enabled : forall e, e ∈ allEntries ps -> Status e = tinkpb.ENABLED;
  wf_primary : Primary ps ∈ allEntries ps
}.

(** The contract of an underlying MAC: a tag it computes verifies. *)
Definition MACContract (p : tink.MAC) : Prop :=
  forall d t, tink.ComputeMAC p d = Ok t -> tink.VerifyMAC p t d = Ok tt.

(** The data a primitive is given under a prefix type. *)
Definition suffixed (t : tinkpb.OutputPrefixType) (data : bytes) : bytes :=
  if decide (t = tinkpb.LEGACY) then data ++ [x00] else data.

(** The data that leaves the first loop when no entry accepted: one zero
    byte was appended for every LEGACY entry tried. *)
Fixpoint carried (entries : list Entry) (data : bytes) : bytes :=
  match entries with
  | [] => data
  | e :: rest => carried rest (suffixed (PrefixType e) data)
  end.

(** The contract of the cipher [chacha20poly1305.NewX] returns: for a key
    of [KeySize] bytes a cipher is returned; with a nonce of [NonceSizeX]
    bytes, [Seal] appends to [dst] a ciphertext [Overhead_] bytes longer
    than the plaintext, which [Open] turns back into the plaintext. *)
Definition XChaChaContract (NewX : bytes -> result chacha20poly1305.AEAD)
    : Prop :=
  forall key, len key = chacha20poly1305.KeySize ->
  exists c, NewX key = Ok c /\
  forall dst nonce plaintext ad, len nonce = chacha20poly1305.NonceSizeX ->
  exists sealed,
    chacha20poly1305.Seal c dst nonce plaintext ad = dst ++ sealed
    /\ len sealed = len plaintext + chacha20poly1305.Overhead_
    /\ chacha20poly1305.Open c [] nonce sealed ad = Ok plaintext.

End invariants.

(* ===================================================================== *)
(** ** Vocabulary for statements about traces *)
(* ===================================================================== *)

Module observations.

Import primitiveset monitoring.

(** The number of LEGACY entries of a bucket. *)
Definition legacyCount (entries : list Entry) : nat :=
  length (filter (fun e => PrefixType e = tinkpb.LEGACY) entries).

(** A call of [VerifyMAC] on some entry's primitive. *)
Definition isVerifyCall (ev : Event) : Prop :=
  match ev with
  | PrimitiveVerifyMAC _ _ _ => True
  | _ => False
  end.

(** A call of [ComputeMAC] on some entry's primitive. *)
Definition isComputeCall (ev : Event) : Prop :=
  match ev with
  | PrimitiveComputeMAC _ _ => True
  | _ => False
  end.

(** The logger call that matches a result: [Log] for success,
    [LogFailure] for an error. *)
Definition closes {A} (l : Logger) (r : result A) (ev : Event) : Prop :=
  match r with
  | Ok _ => exists keyID numBytes, ev = Log l keyID numBytes
  | Err _ => ev = LogFailure l
  end.

(** An entry's primitive accepts a MAC for a data. *)
Definition accepts (e : Entry) (mac_ data : bytes) : Prop :=
  tink.VerifyMAC (Primitive e) mac_ data = Ok tt.

(** The bucket [VerifyMAC] looks up for a MAC: the entries filed under
    its first five bytes. *)
Definition bucketOf (ps : PrimitiveSet) (mac_ : bytes) : list Entry :=
  default [] (Entries ps !! string_of_list_byte (take 5 mac_)).

(** The trace of a loop of [VerifyMAC]: calls of primitives, closed by the
    logger call of the result when the loop returned. *)
Definition loopTrace {S} (logger : Logger)
    (r : W Event (flow (result unit) S)) : Prop :=
  match value r with
  | Return res =>
      exists calls ev, trace r = calls ++ [ev]
        /\ Forall isVerifyCall calls /\ closes logger res ev
  | Continue _ => Forall isVerifyCall (trace r)
  end.

End observations.

(* ===================================================================== *)
(** ** Concrete primitives and key sets used in examples *)
(* ===================================================================== *)

Module fixtures.

Import primitiveset.

Global Instance byte_eq_dec : EqDecision byte := Byte.byte_eq_dec.

(** A toy MAC whose tag is a header followed by the data; verification
    recomputes the tag. It satisfies [VerifyMAC (ComputeMAC d) d = Ok]. *)
Definition echoMAC (hdr : bytes) : tink.MAC := {|
  tink.ComputeMAC d := Ok (hdr ++ d);
  tink.VerifyMAC t d :=
    if decide (t = hdr ++ d) then Ok tt else Err "echo: invalid mac"%string
|}.

(** A toy MAC with a constant tag. *)
Definition constMAC (tag : bytes) : tink.MAC := {|
  tink.ComputeMAC _ := Ok tag;
  tink.VerifyMAC t _ :=
    if decide (t = tag) then Ok tt else Err "const: invalid mac"%string
|}.

Definition entry (id : Z) (p : tink.MAC) (t : tinkpb.OutputPrefixType)
    : Entry := {|
  KeyID := id;
  Primitive := p;
  Prefix := cryptofmt.OutputPrefix t id;
  PrefixType := t;
  Status := tinkpb.ENABLED;
  TypeURL := hmacKeyManager.hmacTypeURL
|}.

Definition wrap (ps : PrimitiveSet) : mac.wrappedMAC := {|
  mac.ps := ps;
  mac.wm_computeLogger := monitoring.computeLogger;
  mac.wm_verifyLogger := monitoring.verifyLogger
|}.

Definition bucketKey (e : Entry) : string := string_of_list_byte (Prefix e).

(** A LEGACY key 7 and a RAW primary 9 whose tags begin with the bytes
    of the prefix of key 7. *)
Definition legacy7 : Entry := entry 7 (echoMAC [x4c]) tinkpb.LEGACY.
Definition raw9 : Entry :=
  entry 9 (echoMAC [x00; x00; x00; x00; x07; xaa]) tinkpb.RAW.

Definition psLegacyRaw : PrimitiveSet := {|
  Primary := raw9;
  Entries := {[ bucketKey legacy7 := [legacy7] ]};
  Raw := [raw9];
  Annotations := ∅
|}.

(** The same keys with the LEGACY one as primary. *)
Definition psLegacyPrimary : PrimitiveSet := {|
  Primary := legacy7;
  Entries := {[ bucketKey legacy7 := [legacy7] ]};
  Raw := [raw9];
  Annotations := ∅
|}.

(** Two LEGACY entries filed under one prefix. *)
Definition legacy7' : Entry := entry 7 (echoMAC [x4d]) tinkpb.LEGACY.

Definition psTwoLegacy : PrimitiveSet := {|
  Primary := legacy7;
  Entries := {[ bucketKey legacy7 := [legacy7'; legacy7] ]};
  Raw := [];
  Annotations := ∅
|}.

(** A TINK primary 16909060 (0x01020304) and a RAW secondary 2. *)
Definition tink1 : Entry :=
  entry 16909060 (echoMAC [x54; x31]) tinkpb.TINK.
Definition raw2 : Entry :=
  entry 2 (echoMAC [x52; x32; x52; x32; x52; x32]) tinkpb.RAW.

Definition psTinkRaw : PrimitiveSet := {|
  Primary := tink1;
  Entries := {[ bucketKey tink1 := [tink1] ]};
  Raw := [raw2];
  Annotations := ∅
|}.

(** The same keys with the RAW one as primary. *)
Definition psRawTink : PrimitiveSet := {|
  Primary := raw2;
  Entries := {[ bucketKey tink1 := [tink1] ]};
  Raw := [raw2];
  Annotations := ∅
|}.

(** A RAW primary whose primitive has a tag of four bytes. *)
Definition raw3 : Entry :=
  entry 3 (constMAC [x2a; x2b; x2c; x2d]) tinkpb.RAW.

Definition psShortRaw : PrimitiveSet := {|
  Primary := raw3;
  Entries := ∅;
  Raw := [raw3];
  Annotations := ∅
|}.

(** *** Collaborators of the HMAC key manager, for examples *)

Definition Z_of_byte (b : byte) : Z := Z.of_N (Byte.to_N b).

(** A toy wire format: version, hash, tag size, then the key bytes. *)
Global Instance toyHmacKeyCodec : ProtoMessage hmacpb.HmacKey := {|
  Marshal k :=
    Ok ([cryptofmt.byte_of_Z (hmacpb.Version k);
         cryptofmt.byte_of_Z (hmacpb.GetHash (hmacpb.Params k));
         cryptofmt.byte_of_Z (hmacpb.GetTagSize (hmacpb.Params k))]
        ++ hmacpb.KeyValue k);
  Unmarshal b :=
    match b with
    | v :: h :: t :: kv =>
        Ok {| hmacpb.Version := Z_of_byte v;
              hmacpb.Params := Some {| hmacpb.Hash := Z_of_byte h;
                                       hmacpb.TagSize := Z_of_byte t |};
              hmacpb.KeyValue := kv |}
    | _ => Err "toy: truncated HmacKey"%string
    end
|}.

(** A toy wire format: version, hash, tag size, key size. *)
Global Instance toyHmacKeyFormatCodec : ProtoMessage hmacpb.HmacKeyFormat := {|
  Marshal f :=
    Ok [cryptofmt.byte_of_Z (hmacpb.Format_Version f);
        cryptofmt.byte_of_Z (hmacpb.GetHash (hmacpb.Format_Params f));
        cryptofmt.byte_of_Z (hmacpb.GetTagSize (hmacpb.Format_Params f));
        cryptofmt.byte_of_Z (hmacpb.KeySize f)];
  Unmarshal b :=
    match b with
    | [v; h; t; n] =>
        Ok {| hmacpb.Format_Params := Some {| hmacpb.Hash := Z_of_byte h;
                                              hmacpb.TagSize := Z_of_byte t |};
              hmacpb.KeySize := Z_of_byte n;
              hmacpb.Format_Version := Z_of_byte v |}
    | _ => Err "toy: malformed HmacKeyFormat"%string
    end
|}.

(** A generator that always yields the byte 07. *)
Lemma fixedRandom_len (n : Z) (s : unit) :
  0 <= n -> len (replicate (Z.to_nat n) x07, s).1 = n.
Proof. intros Hn. unfold len. cbn. rewrite length_replicate. lia. Qed.

Global Instance fixedRandom : RandomSource := {|
  Rand := unit;
  GetRandomBytes n s := (replicate (Z.to_nat n) x07, s);
  GetRandomBytes_len := fixedRandom_len
|}.

Definition HashType_name (h : Z) : string :=
  match h with
  | 0 => "UNKNOWN_HASH" | 1 => "SHA1" | 2 => "SHA384"
  | 3 => "SHA256" | 4 => "SHA512" | 5 => "SHA224"
  | _ => ""
  end%string.

Definition digestSize (hash : string) : option Z :=
  if decide (hash = "SHA1"%string) then Some 20
  else if decide (hash = "SHA224"%string) then Some 28
  else if decide (hash = "SHA256"%string) then Some 32
  else if decide (hash = "SHA384"%string) then Some 48
  else if decide (hash = "SHA512"%string) then Some 64
  else None.

Definition ValidateHMACParams (hash : string) (keySize tagSize : Z)
    : result unit :=
  match digestSize hash with
  | None => Err "invalid hash algorithm"%string
  | Some n =>
      if n <? tagSize then Err "tag size too big"%string
      else if tagSize <? 10 then Err "tag size too small"%string
      else if keySize <? 16 then Err "key too short"%string
      else Ok tt
  end.

Definition NewHMAC (hash : string) (key : bytes) (tagSize : Z)
    : result tink.MAC :=
  match ValidateHMACParams hash (uint32 (len key)) tagSize with
  | Err err => Err (Errorf "hmac: " err)
  | Ok _ => Ok (echoMAC key)
  end.

(** SHA256, 16-byte tags, with a 16-byte key / a key size of 32. *)
Definition key16 : bytes := replicate 16 x6b.
Definition serializedHmacKey : bytes := [x00; x03; x10] ++ key16.
Definition serializedHmacKeyFormat : bytes := [x00; x03; x10; x20].
Definition serializedHmacKeyFormatV1 : bytes := [x01; x03; x10; x20].

Definition fixtureKeyFormat (version : Z) : hmacpb.HmacKeyFormat := {|
  hmacpb.Format_Params := Some {| hmacpb.Hash := 3; hmacpb.TagSize := 16 |};
  hmacpb.KeySize := 32;
  hmacpb.Format_Version := version
|}.

(** The key [NewKey] mints from [serializedHmacKeyFormat] with the
    generator [fixedRandom], and its serialization. *)
Definition mintedKey : hmacpb.HmacKey := {|
  hmacpb.Version := 0;
  hmacpb.Params := Some {| hmacpb.Hash := 3; hmacpb.TagSize := 16 |};
  hmacpb.KeyValue := replicate 32 x07
|}.
Definition serializedMintedKey : bytes := [x00; x03; x10] ++ replicate 32 x07.

(** The key [DeriveKey] derives from a source of bytes 11. *)
Definition derivedKey : hmacpb.HmacKey := {|
  hmacpb.Version := 0;
  hmacpb.Params := Some {| hmacpb.Hash := 3; hmacpb.TagSize := 16 |};
  hmacpb.KeyValue := replicate 32 x11
|}.

(** *** A toy cipher, for examples: the plaintext followed by 16 zero
    bytes. *)

Definition toyAEAD : chacha20poly1305.AEAD := {|
  chacha20poly1305.Seal dst nonce plaintext ad :=
    dst ++ plaintext ++ replicate 16 x00;
  chacha20poly1305.Open dst nonce ciphertext ad :=
    if decide (drop (length ciphertext - 16) ciphertext = replicate 16 x00)
    then Ok (dst ++ take (length ciphertext - 16) ciphertext)
    else Err "chacha20poly1305: message authentication failed"%string;
  chacha20poly1305.Overhead := 16
|}.

Definition toyNewX (key : bytes) : result chacha20poly1305.AEAD :=
  if len key =? chacha20poly1305.KeySize then Ok toyAEAD
  else Err "chacha20poly1305: bad key length"%string.

Definition key32 : bytes := replicate 32 x6b.

End fixtures.


(* ===================================================================== *)
(** * Properties *)
(* ===================================================================== *)

Import primitiveset invariants fixtures.

(** ** The trace monad *)

Lemma value_bind {E A B} (m : W E A) (k : A -> W E B) :
  value (bind m k) = value (k (value m)).
Proof. reflexivity. Qed.

Lemma trace_bind {E A B} (m : W E A) (k : A -> W E B) :
  trace (bind m k) = trace m ++ trace (k (value m)).
Proof. reflexivity. Qed.

Lemma W_eta {E A} (m : W E A) : m = (value m, trace m).
Proof. destruct m; reflexivity. Qed.

(** ** Sizes *)

Lemma intSize_32 : mac.intSize 32 = 32.
Proof. reflexivity. Qed.

Lemma intSize_64 : mac.intSize 64 = 64.
Proof. reflexivity. Qed.

Lemma maxInt_64 : mac.maxInt 64 = 9223372036854775807.
Proof. reflexivity. Qed.

Lemma len_app {A} (a b : list A) : len (a ++ b) = len a + len b.
Proof. unfold len. rewrite length_app. lia. Qed.

Lemma len_replicate {A} (n : nat) (x : A) : len (replicate n x) = Z.of_nat n.
Proof. unfold len. rewrite length_replicate. reflexivity. Qed.

Lemma len_nonneg {A} (a : list A) : 0 <= len a.
Proof. unfold len. lia. Qed.

(** ** wrappedMAC.VerifyMAC on a short MAC *)

(** C4. For every mac of at most 5 bytes and every data, [VerifyMAC]
    returns the invalid-MAC error, and all it does besides is one call of
    [LogFailure] on the verify logger: no primitive of any entry, prefix
    matched or raw, is invoked. *)
Theorem VerifyMAC_short_mac (uintBits : Z) (m : mac.wrappedMAC)
    (mac_ data : bytes) :
  len mac_ <= 5 ->
  mac.VerifyMAC uintBits m mac_ data
  = (Err mac.errInvalidMAC, [LogFailure (mac.wm_verifyLogger m)]).
Proof.
  intros Hlen. unfold mac.VerifyMAC, cryptofmt.NonRawPrefixSize.
  destruct (Z.leb_spec (len mac_) 5) as [_ | Hgt]; [reflexivity | lia].
Qed.

Lemma VerifyMAC_short_mac_witness :
  len [x01; x00; x00; x00; x07] <= 5 /\
  mac.VerifyMAC 64 (wrap psLegacyRaw) [x01; x00; x00; x00; x07] [x68]
  = (Err mac.errInvalidMAC, [LogFailure verifyLogger]).
Proof.
  split; [vm_compute; discriminate |].
  apply (VerifyMAC_short_mac 64 (wrap psLegacyRaw)). vm_compute; discriminate.
Defined.

(** ** wrappedMAC.ComputeMAC *)

Section ComputeMAC.

Variable uintBits : Z.
Variable m : mac.wrappedMAC.

Let p := Primary (mac.ps m).
Let logger := mac.wm_computeLogger m.

Lemma len_0_nil {A} (l : list A) : len l = 0 -> l = [].
Proof. destruct l; [reflexivity | discriminate]. Qed.

(** What [ComputeMAC] does once the data handed to the primitive is
    known. *)
Lemma ComputeMAC_after_suffix (data data' : bytes) :
  suffixed (PrefixType p) data = data' ->
  ~ (PrefixType p = tinkpb.LEGACY /\ mac.maxInt uintBits <= len data) ->
  mac.ComputeMAC uintBits m data =
  match tink.ComputeMAC (Primitive p) data' with
  | Ok tag =>
      (Ok (Prefix p ++ tag),
       [PrimitiveComputeMAC (KeyID p) data'; Log logger (KeyID p) (len data')])
  | Err err =>
      (Err err, [PrimitiveComputeMAC (KeyID p) data'; LogFailure logger])
  end.
Proof.
  intros <- Hbound. unfold mac.ComputeMAC, suffixed. fold p logger.
  destruct (Z.eqb_spec (len (Prefix p)) 0) as [H0 | H0];
    [apply len_0_nil in H0; rewrite H0 |];
    (destruct (decide (PrefixType p = tinkpb.LEGACY)) as [Hleg | Hleg];
     [ destruct (Z.leb_spec (mac.maxInt uintBits) (len data)) as [Hge | Hlt];
       [exfalso; apply Hbound; split; assumption |] |]);
    unfold mac.callComputeMAC, bind, emit, ret; cbn;
    match goal with
    | |- context [tink.ComputeMAC ?q ?d] => destruct (tink.ComputeMAC q d)
    end; reflexivity.
Qed.

(** C3. [ComputeMAC] under a LEGACY primary rejects data of [maxInt] bytes
    or more before any call of the primitive, and otherwise has the tag
    computed over the data followed by one zero byte; under any other
    primary the tag is computed over the data as given, whatever its
    length; the result is the primary's prefix followed by the tag, which
    is the tag itself when the prefix is empty. *)
Theorem ComputeMAC_spec (data : bytes) :
  (PrefixType p = tinkpb.LEGACY -> mac.maxInt uintBits <= len data ->
     mac.ComputeMAC uintBits m data
     = (Err mac.errDataTooLong, [LogFailure logger]))
  /\ (PrefixType p = tinkpb.LEGACY -> len data < mac.maxInt uintBits ->
      forall tag, tink.ComputeMAC (Primitive p) (data ++ [x00]) = Ok tag ->
      mac.ComputeMAC uintBits m data
      = (Ok (Prefix p ++ tag),
         [PrimitiveComputeMAC (KeyID p) (data ++ [x00]);
          Log logger (KeyID p) (len data + 1)]))
  /\ (PrefixType p <> tinkpb.LEGACY ->
      forall tag, tink.ComputeMAC (Primitive p) data = Ok tag ->
      mac.ComputeMAC uintBits m data
      = (Ok (Prefix p ++ tag),
         [PrimitiveComputeMAC (KeyID p) data; Log logger (KeyID p) (len data)]))
  /\ (Prefix p = [] ->
      forall tag,
      tink.ComputeMAC (Primitive p) (suffixed (PrefixType p) data) = Ok tag ->
      ~ (PrefixType p = tinkpb.LEGACY /\ mac.maxInt uintBits <= len data) ->
      value (mac.ComputeMAC uintBits m data) = Ok tag).
Proof.
  repeat split.
  - intros Hleg Hge. unfold mac.ComputeMAC. fold p logger.
    destruct (decide (PrefixType p = tinkpb.LEGACY)); [| contradiction].
    destruct (Z.leb_spec (mac.maxInt uintBits) (len data)); [reflexivity | lia].
  - intros Hleg Hlt tag Htag.
    rewrite (ComputeMAC_after_suffix data (data ++ [x00])).
    + rewrite Htag, len_app. reflexivity.
    + unfold suffixed. destruct (decide _); [reflexivity | contradiction].
    + intros [_ Hge]. lia.
  - intros Hleg tag Htag.
    rewrite (ComputeMAC_after_suffix data data).
    + rewrite Htag. reflexivity.
    + unfold suffixed. destruct (decide _); [contradiction | reflexivity].
    + intros [Hleg' _]. contradiction.
  - intros Hprefix tag Htag Hbound.
    rewrite (ComputeMAC_after_suffix data _ eq_refl Hbound), Htag, Hprefix.
    reflexivity.
Qed.

End ComputeMAC.

Lemma ComputeMAC_spec_witness :
  mac.ComputeMAC 64 (wrap psLegacyPrimary) [x68]
  = (Ok [x00; x00; x00; x00; x07; x4c; x68; x00],
     [PrimitiveComputeMAC 7 [x68; x00]; Log computeLogger 7 2])
  /\ mac.ComputeMAC 64 (wrap psLegacyRaw) [x68]
     = (Ok [x00; x00; x00; x00; x07; xaa; x68],
        [PrimitiveComputeMAC 9 [x68]; Log computeLogger 9 1])
  /\ value (mac.ComputeMAC 64 (wrap psLegacyRaw) [x68])
     = Ok [x00; x00; x00; x00; x07; xaa; x68]
  /\ mac.ComputeMAC 64 (wrap psLegacyPrimary)
       (replicate (Z.to_nat (mac.maxInt 64)) x00)
     = (Err mac.errDataTooLong, [LogFailure computeLogger]).
Proof.
  split; [| split; [| split]].
  - apply (proj1 (proj2 (ComputeMAC_spec 64 (wrap psLegacyPrimary) [x68])));
      [reflexivity | vm_compute; reflexivity | reflexivity].
  - apply (proj1 (proj2 (proj2 (ComputeMAC_spec 64 (wrap psLegacyRaw) [x68]))));
      [discriminate | reflexivity].
  - apply (proj2 (proj2 (proj2 (ComputeMAC_spec 64 (wrap psLegacyRaw) [x68]))));
      [reflexivity | reflexivity | intros [Hleg _]; discriminate Hleg].
  - apply (proj1 (ComputeMAC_spec 64 (wrap psLegacyPrimary) _)); [reflexivity |].
    rewrite len_replicate, Z2Nat.id; [apply Z.le_refl | rewrite maxInt_64; lia].
Defined.

(** ** wrappedMAC.VerifyMAC: the two loops *)

Section VerifyLoops.

Variable uintBits : Z.
Variable m : mac.wrappedMAC.

Let logger := mac.wm_verifyLogger m.

Lemma verifyNonRaw_cons_too_long (macNoPrefix : bytes) (e : Entry)
    (rest : list Entry) (data : bytes) :
  PrefixType e = tinkpb.LEGACY -> mac.maxInt uintBits <= len data ->
  mac.verifyNonRaw uintBits m macNoPrefix (e :: rest) data
  = (Return (Err mac.errDataTooLong), [LogFailure logger]).
Proof.
  intros Hleg Hge. cbn [mac.verifyNonRaw].
  destruct (decide (PrefixType e = tinkpb.LEGACY)); [| contradiction].
  destruct (Z.leb_spec (mac.maxInt uintBits) (len data)); [reflexivity | lia].
Qed.

Lemma verifyNonRaw_cons (macNoPrefix : bytes) (e : Entry)
    (rest : list Entry) (data : bytes) :
  ~ (PrefixType e = tinkpb.LEGACY /\ mac.maxInt uintBits <= len data) ->
  let data' := suffixed (PrefixType e) data in
  mac.verifyNonRaw uintBits m macNoPrefix (e :: rest) data
  = match tink.VerifyMAC (Primitive e) macNoPrefix data' with
    | Ok _ =>
        (Return (Ok tt),
         [PrimitiveVerifyMAC (KeyID e) macNoPrefix data';
          Log logger (KeyID e) (len data')])
    | Err _ =>
        let r := mac.verifyNonRaw uintBits m macNoPrefix rest data' in
        (value r, PrimitiveVerifyMAC (KeyID e) macNoPrefix data' :: trace r)
    end.
Proof.
  intros Hbound. unfold suffixed. cbn [mac.verifyNonRaw].
  destruct (decide (PrefixType e = tinkpb.LEGACY)) as [Hleg | Hleg];
    [ destruct (Z.leb_spec (mac.maxInt uintBits) (len data)) as [Hge | Hlt];
      [exfalso; apply Hbound; split; assumption |] |];
    unfold mac.callVerifyMAC, bind, emit, ret; cbn;
    match goal with
    | |- context [tink.VerifyMAC ?q ?t ?d] => destruct (tink.VerifyMAC q t d)
    end; reflexivity.
Qed.

Lemma verifyRaw_cons (mac_ data : bytes) (e : Entry) (rest : list Entry) :
  mac.verifyRaw m mac_ data (e :: rest)
  = match tink.VerifyMAC (Primitive e) mac_ data with
    | Ok _ =>
        (Return (Ok tt),
         [PrimitiveVerifyMAC (KeyID e) mac_ data; Log logger (KeyID e) (len data)])
    | Err _ =>
        let r := mac.verifyRaw m mac_ data rest in
        (value r, PrimitiveVerifyMAC (KeyID e) mac_ data :: trace r)
    end.
Proof.
  cbn [mac.verifyRaw]. unfold mac.callVerifyMAC, bind, emit, ret; cbn.
  destruct (tink.VerifyMAC (Primitive e) mac_ data); reflexivity.
Qed.

(** When the first loop falls through, the variable [data] holds the
    caller's data followed by one zero byte per LEGACY entry tried. *)
Lemma verifyNonRaw_carries (macNoPrefix : bytes) (entries : list Entry)
    (data data' : bytes) :
  value (mac.verifyNonRaw uintBits m macNoPrefix entries data) = Continue data' ->
  data' = carried entries data.
Proof.
  revert data. induction entries as [| e rest IH]; intros data.
  - cbn. intros [= <-]. reflexivity.
  - destruct (decide (PrefixType e = tinkpb.LEGACY
                      /\ mac.maxInt uintBits <= len data)) as [[Hleg Hge] | Hb].
    + rewrite verifyNonRaw_cons_too_long by assumption. discriminate.
    + rewrite verifyNonRaw_cons by assumption. cbn [carried].
      destruct (tink.VerifyMAC _ _ _); [discriminate | apply IH].
Qed.

(** The first loop ends in one of three ways. *)
Lemma verifyNonRaw_outcome (macNoPrefix : bytes) (entries : list Entry)
    (data : bytes) :
  let v := value (mac.verifyNonRaw uintBits m macNoPrefix entries data) in
  v = Return (Ok tt) \/ v = Return (Err mac.errDataTooLong)
  \/ v = Continue (carried entries data).
Proof.
  revert data. induction entries as [| e rest IH]; intros data; cbn zeta.
  - right; right. reflexivity.
  - destruct (decide (PrefixType e = tinkpb.LEGACY
                      /\ mac.maxInt uintBits <= len data)) as [[Hleg Hge] | Hb].
    + rewrite verifyNonRaw_cons_too_long by assumption. right; left; reflexivity.
    + rewrite verifyNonRaw_cons by assumption. cbn [carried].
      destruct (tink.VerifyMAC _ _ _); [left; reflexivity | apply IH].
Qed.

(** Without a LEGACY entry the first loop accepts or leaves the data as
    it was. *)
Lemma verifyNonRaw_no_legacy (macNoPrefix : bytes) (entries : list Entry)
    (data : bytes) :
  Forall (fun e => PrefixType e <> tinkpb.LEGACY) entries ->
  let v := value (mac.verifyNonRaw uintBits m macNoPrefix entries data) in
  v = Return (Ok tt) \/ v = Continue data.
Proof.
  intros Hno. revert data.
  induction Hno as [| e rest He _ IH]; intros data; cbn zeta.
  - right. reflexivity.
  - rewrite verifyNonRaw_cons by (intros [Hleg _]; contradiction).
    unfold suffixed. destruct (decide _); [contradiction |].
    destruct (tink.VerifyMAC _ _ _); [left; reflexivity | apply IH].
Qed.

(** The second loop accepts as soon as one raw entry does. *)
Lemma verifyRaw_accepts (mac_ data : bytes) (entries : list Entry) (e : Entry) :
  e ∈ entries ->
  tink.VerifyMAC (Primitive e) mac_ data = Ok tt ->
  value (mac.verifyRaw m mac_ data entries) = Return (Ok tt).
Proof.
  intros Hin Hacc. induction Hin as [e rest | e e' rest _ IH];
    rewrite verifyRaw_cons.
  - rewrite Hacc. reflexivity.
  - destruct (tink.VerifyMAC (Primitive e') mac_ data);
      [reflexivity | exact (IH Hacc)].
Qed.

(** [VerifyMAC] on a MAC of more than five bytes, in terms of the loops. *)
Lemma VerifyMAC_long (mac_ data : bytes) :
  5 < len mac_ ->
  value (mac.VerifyMAC uintBits m mac_ data)
  = match value (mac.verifyNonRaw uintBits m (drop 5 mac_)
                   (default [] (Entries (mac.ps m)
                                  !! string_of_list_byte (take 5 mac_))) data) with
    | Return r => r
    | Continue data' =>
        match value (mac.verifyRaw m mac_ data' (Raw (mac.ps m))) with
        | Return r => r
        | Continue _ => Err mac.errInvalidMAC
        end
    end.
Proof.
  intros Hlen. unfold mac.VerifyMAC, cryptofmt.NonRawPrefixSize.
  destruct (Z.leb_spec (len mac_) 5) as [Hle | _]; [lia |].
  unfold EntriesForPrefix, RawEntries. change (Z.to_nat 5) with 5%nat.
  rewrite value_bind.
  destruct (value (mac.verifyNonRaw _ _ _ _ _)) as [r | data']; [reflexivity |].
  rewrite value_bind.
  destruct (value (mac.verifyRaw _ _ _ _)); reflexivity.
Qed.

End VerifyLoops.

Lemma carried_no_legacy (entries : list Entry) (data : bytes) :
  Forall (fun e => PrefixType e <> tinkpb.LEGACY) entries ->
  carried entries data = data.
Proof.
  induction 1 as [| e rest He _ IH]; cbn [carried]; [reflexivity |].
  unfold suffixed. destruct (decide _); [contradiction | exact IH].
Qed.

(** ** Well-formed primitive sets *)

Lemma byte_of_Z_land (a b : Z) :
  cryptofmt.byte_of_Z a = cryptofmt.byte_of_Z b -> Z.land a 255 = Z.land b 255.
Proof.
  assert (Hbyte : forall z, Byte.to_N (cryptofmt.byte_of_Z z)
                            = Z.to_N (Z.land z 255)).
  { intros z. unfold cryptofmt.byte_of_Z.
    destruct (Byte.of_N (Z.to_N (Z.land z 255))) as [x |] eqn:Hx.
    - apply Byte.to_of_N in Hx. exact Hx.
    - apply Byte.of_N_None_iff in Hx.
      change 255 with (Z.ones 8) in Hx. rewrite Z.land_ones in Hx by lia.
      pose proof (Z.mod_pos_bound z (2 ^ 8)). lia. }
  intros Heq. apply (f_equal Byte.to_N) in Heq. rewrite !Hbyte in Heq.
  assert (Hnn : forall z, 0 <= Z.land z 255)
    by (intros z; apply Z.land_nonneg; right; lia).
  pose proof (Hnn a). pose proof (Hnn b). lia.
Qed.

Lemma BigEndianUint32_inj (k k' : Z) :
  0 <= k < 2 ^ 32 -> 0 <= k' < 2 ^ 32 ->
  cryptofmt.BigEndianUint32 k = cryptofmt.BigEndianUint32 k' -> k = k'.
Proof.
  intros Hk Hk' Heq. unfold cryptofmt.BigEndianUint32 in Heq.
  injection Heq as H3 H2 H1 H0.
  apply byte_of_Z_land in H3, H2, H1, H0.
  change 255 with (Z.ones 8) in *.
  rewrite !Z.land_ones, !Z.shiftr_div_pow2 in * by lia.
  change (2 ^ 8) with 256 in *. change (2 ^ 16) with 65536 in *.
  change (2 ^ 24) with 16777216 in *. change (2 ^ 32) with 4294967296 in *.
  Z.div_mod_to_equations. lia.
Qed.

Lemma OutputPrefix_inj (t t' : tinkpb.OutputPrefixType) (k k' : Z) :
  t <> tinkpb.RAW ->
  0 <= k < 2 ^ 32 -> 0 <= k' < 2 ^ 32 ->
  cryptofmt.OutputPrefix t k = cryptofmt.OutputPrefix t' k' -> k = k'.
Proof.
  intros Ht Hk Hk' Heq.
  destruct t, t'; unfold cryptofmt.OutputPrefix in Heq; try congruence;
    (apply BigEndianUint32_inj; [assumption | assumption | congruence]).
Qed.

Lemma OutputPrefix_length (t : tinkpb.OutputPrefixType) (k : Z) :
  len (cryptofmt.OutputPrefix t k) = if decide (t = tinkpb.RAW) then 0 else 5.
Proof. destruct t; reflexivity. Qed.

Lemma NoDup_fmap_concat {A B} (f : A -> B) (ls : list (list A)) (l : list A) :
  NoDup (f <$> concat ls) -> l ∈ ls -> NoDup (f <$> l).
Proof.
  intros Hnd Hin. induction Hin as [l ls | l l' ls _ IH];
    cbn in Hnd; rewrite fmap_app in Hnd; apply NoDup_app in Hnd.
  - apply Hnd.
  - apply IH, Hnd.
Qed.

Lemma elem_of_concat {A} (x : A) (ls : list (list A)) :
  x ∈ concat ls <-> exists l, x ∈ l /\ l ∈ ls.
Proof.
  induction ls as [| l ls IH]; cbn.
  - split; [intros H; inversion H | intros (l & _ & H); inversion H].
  - rewrite elem_of_app, IH. split.
    + intros [H | (l' & H & Hl')].
      * exists l. split; [exact H | left].
      * exists l'. split; [exact H | right; exact Hl'].
    + intros (l' & H & Hl'). apply elem_of_cons in Hl' as [-> | Hl'].
      * left; exact H.
      * right. exists l'. split; assumption.
Qed.

Lemma same_key_singleton (l : list Entry) (e : Entry) :
  NoDup (KeyID <$> l) -> e ∈ l ->
  (forall e', e' ∈ l -> KeyID e' = KeyID e) -> l = [e].
Proof.
  intros Hnd Hin Hsame.
  destruct l as [| a [| b rest]].
  - inversion Hin.
  - apply list_elem_of_singleton in Hin. subst; reflexivity.
  - exfalso. cbn in Hnd. apply NoDup_cons in Hnd as [Hnotin _].
    apply Hnotin. rewrite (Hsame a), <- (Hsame b) by (repeat constructor).
    left.
Qed.

Section WellFormed.

Variable ps : PrimitiveSet.
Hypothesis wf : WellFormed ps.

Lemma bucket_in_all (k : string) (l : list Entry) (e : Entry) :
  Entries ps !! k = Some l -> e ∈ l -> e ∈ allEntries ps.
Proof.
  intros Hk Hin. unfold allEntries. apply elem_of_app; left.
  apply elem_of_concat. exists l. split; [exact Hin |].
  apply list_elem_of_fmap. exists (k, l). split; [reflexivity |].
  apply elem_of_map_to_list. exact Hk.
Qed.

Lemma raw_in_all (e : Entry) : e ∈ Raw ps -> e ∈ allEntries ps.
Proof. intros Hin. unfold allEntries. apply elem_of_app; right; exact Hin. Qed.

(** With unique key ids a bucket holds one entry. *)
Lemma bucket_singleton (k : string) (l : list Entry) (e : Entry) :
  Entries ps !! k = Some l -> e ∈ l -> l = [e].
Proof.
  intros Hk Hin. apply same_key_singleton; [| exact Hin |].
  - apply (NoDup_fmap_concat KeyID (map_to_list (Entries ps)).*2).
    + pose proof (wf_keyID_unique ps wf) as Hnd. unfold allEntries in Hnd.
      rewrite fmap_app in Hnd. apply NoDup_app in Hnd. apply Hnd.
    + apply list_elem_of_fmap. exists (k, l). split; [reflexivity |].
      apply elem_of_map_to_list. exact Hk.
  - intros e' Hin'.
    destruct (wf_bucket ps wf k l e Hk Hin) as [Hraw Hkey].
    destruct (wf_bucket ps wf k l e' Hk Hin') as [Hraw' Hkey'].
    pose proof (bucket_in_all k l e Hk Hin) as Hall.
    pose proof (bucket_in_all k l e' Hk Hin') as Hall'.
    assert (Hpre : Prefix e' = Prefix e).
    { rewrite <- (list_byte_of_string_of_list_byte (Prefix e')),
        <- (list_byte_of_string_of_list_byte (Prefix e)), <- Hkey, <- Hkey'.
      reflexivity. }
    rewrite (wf_prefix ps wf e' Hall'), (wf_prefix ps wf e Hall) in Hpre.
    apply (OutputPrefix_inj _ _ _ _ Hraw' (wf_keyID_range ps wf e' Hall')
             (wf_keyID_range ps wf e Hall) Hpre).
Qed.

(** Where the primary is filed. *)
Lemma primary_raw :
  PrefixType (Primary ps) = tinkpb.RAW ->
  Primary ps ∈ Raw ps /\ Prefix (Primary ps) = [].
Proof.
  intros Hraw. pose proof (wf_primary ps wf) as Hin. split.
  - unfold allEntries in Hin. apply elem_of_app in Hin as [Hin | Hin];
      [| exact Hin].
    apply elem_of_concat in Hin as (l & Hin & Hl).
    apply list_elem_of_fmap in Hl as ([k l'] & -> & Hl).
    apply elem_of_map_to_list in Hl.
    destruct (wf_bucket ps wf k l' _ Hl Hin) as [Hne _]. contradiction.
  - rewrite (wf_prefix ps wf _ Hin), Hraw. reflexivity.
Qed.

Lemma primary_bucket :
  PrefixType (Primary ps) <> tinkpb.RAW ->
  Entries ps !! string_of_list_byte (Prefix (Primary ps)) = Some [Primary ps]
  /\ len (Prefix (Primary ps)) = 5.
Proof.
  intros Hraw. pose proof (wf_primary ps wf) as Hin. split.
  - unfold allEntries in Hin. apply elem_of_app in Hin as [Hin | Hin].
    + apply elem_of_concat in Hin as (l & Hin & Hl).
      apply list_elem_of_fmap in Hl as ([k l'] & -> & Hl).
      apply elem_of_map_to_list in Hl. cbn in Hin.
      destruct (wf_bucket ps wf k l' _ Hl Hin) as [_ <-].
      rewrite Hl. f_equal. apply (bucket_singleton k); assumption.
    + apply (wf_raw ps wf) in Hin. contradiction.
  - rewrite (wf_prefix ps wf _ Hin), OutputPrefix_length.
    destruct (decide _); [contradiction | reflexivity].
Qed.

End WellFormed.

(** Two shapes of well-formed primitive set. *)
Lemma WellFormed_bucket_raw (ps : PrimitiveSet) (eb er : Entry) :
  Entries ps = {[ string_of_list_byte (Prefix eb) := [eb] ]} ->
  Raw ps = [er] ->
  PrefixType eb <> tinkpb.RAW -> PrefixType er = tinkpb.RAW ->
  Prefix eb = cryptofmt.OutputPrefix (PrefixType eb) (KeyID eb) ->
  Prefix er = cryptofmt.OutputPrefix (PrefixType er) (KeyID er) ->
  0 <= KeyID eb < 2 ^ 32 -> 0 <= KeyID er < 2 ^ 32 ->
  KeyID eb <> KeyID er ->
  Status eb = tinkpb.ENABLED -> Status er = tinkpb.ENABLED ->
  Primary ps = eb \/ Primary ps = er ->
  WellFormed ps.
Proof.
  intros HE HR Hb Hr Hpb Hpr Hkb Hkr Hne Hsb Hsr Hprim.
  assert (Hall : allEntries ps = [eb; er]).
  { unfold allEntries. rewrite HE, HR, map_to_list_singleton. reflexivity. }
  assert (Hcases : forall e, e ∈ allEntries ps -> e = eb \/ e = er).
  { intros e. rewrite Hall, !elem_of_cons. intros [-> | [-> | H]];
      [left | right | inversion H]; reflexivity. }
  constructor.
  - intros e [-> | ->]%Hcases; assumption.
  - intros e [-> | ->]%Hcases; assumption.
  - rewrite Hall. cbn. apply NoDup_cons. split.
    + rewrite list_elem_of_singleton. exact Hne.
    + apply NoDup_singleton.
  - intros k l e Hk Hin. rewrite HE in Hk.
    apply lookup_singleton_Some in Hk as [<- <-].
    apply list_elem_of_singleton in Hin as ->. split; [exact Hb | reflexivity].
  - intros e Hin. rewrite HR in Hin.
    apply list_elem_of_singleton in Hin as ->. exact Hr.
  - intros e [-> | ->]%Hcases; assumption.
  - rewrite Hall, !elem_of_cons. destruct Hprim as [-> | ->]; auto.
Qed.

Lemma WellFormed_raw_only (ps : PrimitiveSet) (er : Entry) :
  Entries ps = ∅ -> Raw ps = [er] -> Primary ps = er ->
  PrefixType er = tinkpb.RAW ->
  Prefix er = cryptofmt.OutputPrefix (PrefixType er) (KeyID er) ->
  0 <= KeyID er < 2 ^ 32 ->
  Status er = tinkpb.ENABLED ->
  WellFormed ps.
Proof.
  intros HE HR HP Hr Hpr Hkr Hsr.
  assert (Hall : allEntries ps = [er]).
  { unfold allEntries. rewrite HE, HR, map_to_list_empty. reflexivity. }
  constructor; rewrite ?Hall.
  - intros e ->%list_elem_of_singleton. exact Hpr.
  - intros e ->%list_elem_of_singleton. exact Hkr.
  - apply NoDup_singleton.
  - intros k l e Hk. rewrite HE, lookup_empty in Hk. discriminate Hk.
  - intros e Hin. rewrite HR in Hin.
    apply list_elem_of_singleton in Hin as ->. exact Hr.
  - intros e ->%list_elem_of_singleton. exact Hsr.
  - rewrite HP. apply list_elem_of_singleton. reflexivity.
Qed.

Lemma echoMAC_contract (hdr : bytes) : MACContract (echoMAC hdr).
Proof.
  intros d t [= <-]. cbn. destruct (decide _); [reflexivity | contradiction].
Qed.

Lemma constMAC_contract (tag : bytes) : MACContract (constMAC tag).
Proof.
  intros d t [= <-]. cbn. destruct (decide _); [reflexivity | contradiction].
Qed.

Lemma psTinkRaw_wf : WellFormed psTinkRaw.
Proof.
  apply (WellFormed_bucket_raw psTinkRaw tink1 raw2);
    try reflexivity; try (cbn; lia); try discriminate.
  left; reflexivity.
Qed.

Lemma psRawTink_wf : WellFormed psRawTink.
Proof.
  apply (WellFormed_bucket_raw psRawTink tink1 raw2);
    try reflexivity; try (cbn; lia); try discriminate.
  right; reflexivity.
Qed.

Lemma psLegacyRaw_wf : WellFormed psLegacyRaw.
Proof.
  apply (WellFormed_bucket_raw psLegacyRaw legacy7 raw9);
    try reflexivity; try (cbn; lia); try discriminate.
  right; reflexivity.
Qed.

Lemma psLegacyPrimary_wf : WellFormed psLegacyPrimary.
Proof.
  apply (WellFormed_bucket_raw psLegacyPrimary legacy7 raw9);
    try reflexivity; try (cbn; lia); try discriminate.
  left; reflexivity.
Qed.

Lemma psShortRaw_wf : WellFormed psShortRaw.
Proof.
  apply (WellFormed_raw_only psShortRaw raw3);
    try reflexivity; cbn; lia.
Qed.

(** ** wrappedMAC.VerifyMAC: the data handed to the entries *)

(** C1, on the code. The variable [data] is assigned inside the first loop
    of [VerifyMAC], so an entry tried after a LEGACY entry that rejected
    does not see the caller's data:
    - on the well-formed set with the LEGACY key 7 filed under the first
      five bytes of the MAC and the RAW key 9, the raw primitive is called
      with the full MAC but with the data followed by a zero byte;
    - with two LEGACY entries under one prefix, the second is called with
      the data followed by two zero bytes. *)
Theorem VerifyMAC_data_carried_over :
  WellFormed psLegacyRaw
  /\ mac.VerifyMAC 64 (wrap psLegacyRaw) [x00; x00; x00; x00; x07; xaa] []
  = (Err mac.errInvalidMAC,
     [PrimitiveVerifyMAC 7 [xaa] [x00];
      PrimitiveVerifyMAC 9 [x00; x00; x00; x00; x07; xaa] [x00];
      LogFailure verifyLogger])
  /\ mac.VerifyMAC 64 (wrap psTwoLegacy)
       [x00; x00; x00; x00; x07; x4c; x68; x00] [x68]
     = (Err mac.errInvalidMAC,
        [PrimitiveVerifyMAC 7 [x4c; x68; x00] [x68; x00];
         PrimitiveVerifyMAC 7 [x4c; x68; x00] [x68; x00; x00];
         LogFailure verifyLogger]).
Proof.
  split; [exact psLegacyRaw_wf |]. split; vm_compute; reflexivity.
Qed.

(** The same defect seen from outside: the MAC that [ComputeMAC] returns
    for the empty data under the RAW primary 9 is rejected by [VerifyMAC],
    and the MAC of the one-byte data [00] is accepted for the empty data. *)
Example VerifyMAC_data_carried_over_roundtrip :
  value (mac.ComputeMAC 64 (wrap psLegacyRaw) [])
  = Ok [x00; x00; x00; x00; x07; xaa]
  /\ value (mac.VerifyMAC 64 (wrap psLegacyRaw) [x00; x00; x00; x00; x07; xaa] [])
     = Err mac.errInvalidMAC
  /\ value (mac.ComputeMAC 64 (wrap psLegacyRaw) [x00])
     = Ok [x00; x00; x00; x00; x07; xaa; x00]
  /\ value (mac.VerifyMAC 64 (wrap psLegacyRaw)
              [x00; x00; x00; x00; x07; xaa; x00] [])
     = Ok tt.
Proof. repeat split; vm_compute; reflexivity. Qed.

(** ** wrappedMAC: VerifyMAC after ComputeMAC *)

Lemma len_length {A} (l : list A) (n : nat) : len l = Z.of_nat n -> length l = n.
Proof. unfold len. lia. Qed.

(** C2, amended. On a well-formed primitive set whose primary's primitive
    satisfies the MAC contract and computes a tag, with data shorter than
    [maxInt] under a LEGACY primary and an output longer than five bytes,
    [ComputeMAC] returns the prefix followed by the tag and [VerifyMAC]
    accepts it for the same data. Under a RAW primary this is stated for
    tags whose first five bytes are not the prefix of a LEGACY entry. *)
Theorem VerifyMAC_ComputeMAC_roundtrip (uintBits : Z) (m : mac.wrappedMAC)
    (data tag : bytes) :
  let p := Primary (mac.ps m) in
  WellFormed (mac.ps m) ->
  MACContract (Primitive p) ->
  tink.ComputeMAC (Primitive p) (suffixed (PrefixType p) data) = Ok tag ->
  (PrefixType p = tinkpb.LEGACY -> len data < mac.maxInt uintBits) ->
  5 < len (Prefix p ++ tag) ->
  (PrefixType p = tinkpb.RAW ->
   Forall (fun e => PrefixType e <> tinkpb.LEGACY)
     (default [] (Entries (mac.ps m) !! string_of_list_byte (take 5 tag)))) ->
  value (mac.ComputeMAC uintBits m data) = Ok (Prefix p ++ tag)
  /\ value (mac.VerifyMAC uintBits m (Prefix p ++ tag) data) = Ok tt.
Proof.
  intros p Hwf Hcontract Htag Hbound Hlen Hnoleg.
  assert (Hb : ~ (PrefixType p = tinkpb.LEGACY
                  /\ mac.maxInt uintBits <= len data))
    by (intros [Hleg Hge]; specialize (Hbound Hleg); lia).
  pose proof (Hcontract _ _ Htag) as Hverify.
  split.
  - rewrite (ComputeMAC_after_suffix uintBits m data _ eq_refl Hb).
    fold p. rewrite Htag. reflexivity.
  - rewrite VerifyMAC_long by exact Hlen.
    destruct (decide (PrefixType p = tinkpb.RAW)) as [Hraw | Hraw].
    + (* the primary is among the raw entries *)
      destruct (primary_raw _ Hwf Hraw) as [Hin Hprefix]. fold p in Hin, Hprefix.
      rewrite Hprefix. cbn [app].
      assert (Hdata : suffixed (PrefixType p) data = data)
        by (unfold suffixed; rewrite Hraw; reflexivity).
      rewrite Hdata in Hverify.
      destruct (verifyNonRaw_no_legacy uintBits m (drop 5 tag) _ data
                  (Hnoleg Hraw)) as [-> | ->]; [reflexivity |].
      rewrite (verifyRaw_accepts m tag data _ p Hin Hverify). reflexivity.
    + (* the primary is alone in the bucket of its prefix *)
      destruct (primary_bucket _ Hwf Hraw) as [Hbucket Hplen].
      fold p in Hbucket, Hplen.
      apply (len_length _ 5%nat) in Hplen.
      rewrite take_app_length', drop_app_length' by (symmetry; exact Hplen).
      rewrite Hbucket. cbn [default from_option id].
      rewrite verifyNonRaw_cons by exact Hb. cbn zeta.
      rewrite Hverify. reflexivity.
Qed.

Lemma VerifyMAC_ComputeMAC_roundtrip_witness :
  (* a TINK primary *)
  (value (mac.ComputeMAC 64 (wrap psTinkRaw) [x68; x69])
   = Ok [x01; x01; x02; x03; x04; x54; x31; x68; x69]
   /\ value (mac.VerifyMAC 64 (wrap psTinkRaw)
               [x01; x01; x02; x03; x04; x54; x31; x68; x69] [x68; x69])
      = Ok tt)
  (* a LEGACY primary *)
  /\ (value (mac.ComputeMAC 64 (wrap psLegacyPrimary) [x68])
      = Ok [x00; x00; x00; x00; x07; x4c; x68; x00]
      /\ value (mac.VerifyMAC 64 (wrap psLegacyPrimary)
                  [x00; x00; x00; x00; x07; x4c; x68; x00] [x68])
         = Ok tt)
  (* a RAW primary *)
  /\ (value (mac.ComputeMAC 64 (wrap psRawTink) [x68])
      = Ok [x52; x32; x52; x32; x52; x32; x68]
      /\ value (mac.VerifyMAC 64 (wrap psRawTink)
                  [x52; x32; x52; x32; x52; x32; x68] [x68])
         = Ok tt).
Proof.
  split; [| split].
  - apply (VerifyMAC_ComputeMAC_roundtrip 64 (wrap psTinkRaw) [x68; x69]
             [x54; x31; x68; x69]).
    + exact psTinkRaw_wf.
    + apply echoMAC_contract.
    + reflexivity.
    + discriminate.
    + vm_compute. reflexivity.
    + discriminate.
  - apply (VerifyMAC_ComputeMAC_roundtrip 64 (wrap psLegacyPrimary) [x68]
             [x4c; x68; x00]).
    + exact psLegacyPrimary_wf.
    + apply echoMAC_contract.
    + reflexivity.
    + intros _. vm_compute. reflexivity.
    + vm_compute. reflexivity.
    + discriminate.
  - apply (VerifyMAC_ComputeMAC_roundtrip 64 (wrap psRawTink) [x68]
             [x52; x32; x52; x32; x52; x32; x68]).
    + exact psRawTink_wf.
    + apply echoMAC_contract.
    + reflexivity.
    + discriminate.
    + vm_compute. reflexivity.
    + intros _. vm_compute. constructor.
Defined.

(** C2 as stated fails: the RAW primary 3 is well formed, its primitive
    satisfies the contract and computes a tag, and [VerifyMAC] rejects the
    four-byte MAC that [ComputeMAC] returned. *)
Lemma VerifyMAC_ComputeMAC_short_tag_counterexample :
  WellFormed psShortRaw
  /\ MACContract (Primitive (Primary psShortRaw))
  /\ value (mac.ComputeMAC 64 (wrap psShortRaw) [x68])
     = Ok [x2a; x2b; x2c; x2d]
  /\ value (mac.VerifyMAC 64 (wrap psShortRaw) [x2a; x2b; x2c; x2d] [x68])
     = Err mac.errInvalidMAC.
Proof.
  split; [exact psShortRaw_wf |].
  split; [apply constMAC_contract |].
  split; vm_compute; reflexivity.
Qed.

(** ** hmacKeyManager.Primitive *)

Section HmacPrimitive.

Import hmacpb.

Context `{ProtoMessage HmacKey}.
Variable HashType_name : Z -> string.
Variable ValidateHMACParams : string -> Z -> Z -> result unit.
Variable NewHMAC : string -> bytes -> Z -> result tink.MAC.

(** [subtle.NewHMAC] accepts the parameters [subtle.ValidateHMACParams]
    accepts. *)
Hypothesis NewHMAC_accepts : forall hash key tagSize,
  ValidateHMACParams hash (uint32 (len key)) tagSize = Ok tt ->
  exists hmac, NewHMAC hash key tagSize = Ok hmac.

Let Primitive :=
  hmacKeyManager.Primitive HashType_name ValidateHMACParams NewHMAC.

Let validates (key : HmacKey) : result unit :=
  ValidateHMACParams (HashType_name (GetHash (Params key)))
    (uint32 (len (KeyValue key))) (GetTagSize (Params key)).

(** C5. [Primitive] fails on an empty key, on a key that does not parse,
    on a version above 0 and on parameters [ValidateHMACParams] rejects;
    in every other case it returns the primitive [NewHMAC] built. *)
Theorem Primitive_spec (serializedKey : bytes) :
  (serializedKey = [] ->
     Primitive serializedKey = Err hmacKeyManager.errInvalidHMACKey)
  /\ (forall e, Unmarshal serializedKey = Err e ->
        Primitive serializedKey = Err hmacKeyManager.errInvalidHMACKey)
  /\ (forall key, Unmarshal serializedKey = Ok key -> 0 < Version key ->
        exists e, Primitive serializedKey = Err e)
  /\ (forall key e, Unmarshal serializedKey = Ok key -> validates key = Err e ->
        exists e', Primitive serializedKey = Err e')
  /\ (forall key, serializedKey <> [] -> Unmarshal serializedKey = Ok key ->
        Version key <= 0 -> validates key = Ok tt ->
        exists hmac,
          NewHMAC (HashType_name (GetHash (Params key))) (KeyValue key)
            (GetTagSize (Params key)) = Ok hmac
          /\ Primitive serializedKey = Ok hmac).
Proof.
  unfold Primitive, validates, hmacKeyManager.Primitive,
    hmacKeyManager.validateKey, keyset.ValidateKeyVersion,
    hmacKeyManager.hmacKeyVersion.
  repeat split.
  - intros ->. reflexivity.
  - intros e He. destruct (len serializedKey =? 0); [reflexivity |].
    rewrite He. reflexivity.
  - intros key Hkey Hver. destruct (len serializedKey =? 0); [eauto |].
    rewrite Hkey. destruct (Z.ltb_spec 0 (Version key)); [eauto | lia].
  - intros key e Hkey Hval. destruct (len serializedKey =? 0); [eauto |].
    rewrite Hkey. destruct (0 <? Version key); [eauto |].
    rewrite Hval. eauto.
  - intros key Hne Hkey Hver Hval.
    destruct (NewHMAC_accepts _ _ _ Hval) as [hmac Hnew].
    exists hmac. split; [exact Hnew |].
    destruct (Z.eqb_spec (len serializedKey) 0) as [H0 | _];
      [apply len_0_nil in H0; contradiction |].
    rewrite Hkey. destruct (Z.ltb_spec 0 (Version key)); [lia |].
    rewrite Hval, Hnew. reflexivity.
Qed.

End HmacPrimitive.

Lemma fixture_NewHMAC_accepts (hash : string) (key : bytes) (tagSize : Z) :
  ValidateHMACParams hash (uint32 (len key)) tagSize = Ok tt ->
  exists hmac, NewHMAC hash key tagSize = Ok hmac.
Proof. intros Hval. unfold NewHMAC. rewrite Hval. eauto. Qed.

Lemma Primitive_spec_witness :
  exists hmac,
    NewHMAC "SHA256" key16 16 = Ok hmac
    /\ hmacKeyManager.Primitive HashType_name ValidateHMACParams NewHMAC
         serializedHmacKey = Ok hmac.
Proof.
  apply (proj2 (proj2 (proj2 (proj2
          (Primitive_spec HashType_name ValidateHMACParams NewHMAC
             fixture_NewHMAC_accepts serializedHmacKey))))
         {| hmacpb.Version := 0;
            hmacpb.Params := Some {| hmacpb.Hash := 3; hmacpb.TagSize := 16 |};
            hmacpb.KeyValue := key16 |}).
  - discriminate.
  - reflexivity.
  - cbn. lia.
  - reflexivity.
Defined.

(** ** hmacKeyManager.DeriveKey and hmacKeyManager.NewKey *)

Lemma ReadFull_enough (r : io.Reader) (n : Z) :
  n <= len r ->
  io.ReadFull r n = (Ok (take (Z.to_nat n) r), drop (Z.to_nat n) r).
Proof.
  intros Hn. unfold io.ReadFull.
  destruct (Z.leb_spec n (len r)); [reflexivity | lia].
Qed.

Lemma ReadFull_short (r : io.Reader) (n : Z) :
  len r < n -> io.ReadFull r n = (Err io.ErrUnexpectedEOF, []).
Proof.
  intros Hn. unfold io.ReadFull.
  destruct (Z.leb_spec n (len r)); [lia | reflexivity].
Qed.

(** What [ReadFull] returns depends on the first [n] bytes only. *)
Lemma ReadFull_prefix (r r' : io.Reader) (n : Z) :
  take (Z.to_nat n) r = take (Z.to_nat n) r' ->
  (io.ReadFull r n).1 = (io.ReadFull r' n).1.
Proof.
  intros Htake. unfold io.ReadFull.
  assert (Hlen : n <= len r <-> n <= len r').
  { apply (f_equal length) in Htake. rewrite !length_take in Htake.
    unfold len. lia. }
  destruct (Z.leb_spec n (len r)), (Z.leb_spec n (len r')); cbn;
    [rewrite Htake; reflexivity | lia | lia | reflexivity].
Qed.

Section HmacKeys.

Import hmacpb.

Context `{ProtoMessage HmacKey} `{ProtoMessage HmacKeyFormat}.
Context `{RS : RandomSource}.
Variable HashType_name : Z -> string.
Variable ValidateHMACParams : string -> Z -> Z -> result unit.

Let DeriveKey := hmacKeyManager.DeriveKey HashType_name ValidateHMACParams.
Let NewKey := hmacKeyManager.NewKey HashType_name ValidateHMACParams.
Let NewKeyData := hmacKeyManager.NewKeyData HashType_name ValidateHMACParams.
Lemma DeriveKey_valid (serializedKeyFormat : bytes) (keyFormat : HmacKeyFormat)
    (r : io.Reader) :
  hmacKeyManager.parsesTo HashType_name ValidateHMACParams
    serializedKeyFormat keyFormat ->
  Format_Version keyFormat <= 0 ->
  DeriveKey serializedKeyFormat r =
  match io.ReadFull r (KeySize keyFormat) with
  | (Err _, r') =>
      (Err "hmac_key_manager: not enough pseudorandomness given"%string, r')
  | (Ok keyValue, r') =>
      (Ok {| Version := 0; Params := Format_Params keyFormat;
             KeyValue := keyValue |}, r')
  end.
Proof.
  intros (Hne & Hparse & Hval) Hver.
  unfold DeriveKey, hmacKeyManager.DeriveKey.
  destruct (Z.eqb_spec (len serializedKeyFormat) 0) as [Hz | _];
    [apply len_0_nil in Hz; contradiction |].
  rewrite Hparse. rewrite Hval.
  unfold keyset.ValidateKeyVersion, hmacKeyManager.hmacKeyVersion.
  destruct (Z.ltb_spec 0 (Format_Version keyFormat)); [lia | reflexivity].
Qed.

(** C6. For a valid serialized format, [DeriveKey] returns the key at
    version 0 whose value is the first [KeySize] bytes of the source, fails
    when the source has fewer bytes, and gives the same result on two
    sources that agree on their first [KeySize] bytes. *)
Theorem DeriveKey_spec (serializedKeyFormat : bytes)
    (keyFormat : HmacKeyFormat) (r : io.Reader) :
  hmacKeyManager.parsesTo HashType_name ValidateHMACParams
    serializedKeyFormat keyFormat ->
  Format_Version keyFormat <= 0 ->
  (KeySize keyFormat <= len r ->
     DeriveKey serializedKeyFormat r
     = (Ok {| Version := 0; Params := Format_Params keyFormat;
              KeyValue := take (Z.to_nat (KeySize keyFormat)) r |},
        drop (Z.to_nat (KeySize keyFormat)) r))
  /\ (len r < KeySize keyFormat ->
      exists e, (DeriveKey serializedKeyFormat r).1 = Err e)
  /\ (forall r' : io.Reader,
      take (Z.to_nat (KeySize keyFormat)) r'
      = take (Z.to_nat (KeySize keyFormat)) r ->
      (DeriveKey serializedKeyFormat r').1 = (DeriveKey serializedKeyFormat r).1).
Proof.
  intros Hvalid Hver. repeat split.
  - intros Hlen. rewrite (DeriveKey_valid _ _ _ Hvalid Hver).
    rewrite ReadFull_enough by exact Hlen. reflexivity.
  - intros Hlen. rewrite (DeriveKey_valid _ _ _ Hvalid Hver).
    rewrite ReadFull_short by exact Hlen. eauto.
  - intros r' Htake. rewrite !(DeriveKey_valid _ _ _ Hvalid Hver).
    pose proof (ReadFull_prefix r' r _ Htake) as Hread.
    destruct (io.ReadFull r' (KeySize keyFormat)) as [[kv' | e'] rest'],
             (io.ReadFull r (KeySize keyFormat)) as [[kv | e] rest];
      cbn in Hread |- *; congruence.
Qed.

(** C9. A format whose version is above 0 and whose parameters are valid
    is accepted by [NewKey], and by [NewKeyData] when the new key
    serializes, and is rejected by [DeriveKey]. *)
Theorem NewKey_ignores_format_version (serializedKeyFormat : bytes)
    (keyFormat : HmacKeyFormat) (s : Rand) (r : io.Reader) :
  hmacKeyManager.parsesTo HashType_name ValidateHMACParams
    serializedKeyFormat keyFormat ->
  0 < Format_Version keyFormat ->
  let key := {| Version := 0; Params := Format_Params keyFormat;
                KeyValue := (GetRandomBytes (KeySize keyFormat) s).1 |} in
  NewKey serializedKeyFormat s
  = (Ok key, (GetRandomBytes (KeySize keyFormat) s).2)
  /\ (forall serializedKey, Marshal key = Ok serializedKey ->
      (NewKeyData serializedKeyFormat s).1
      = Ok {| tinkpb.KeyData_TypeUrl := hmacKeyManager.hmacTypeURL;
              tinkpb.KeyData_Value := serializedKey;
              tinkpb.KeyData_KeyMaterialType := tinkpb.SYMMETRIC |})
  /\ exists e,
      DeriveKey serializedKeyFormat r
      = (Err (Errorf "hmac_key_manager: invalid key version: " e), r).
Proof.
  intros (Hne & Hparse & Hval) Hver key.
  assert (Hnew : NewKey serializedKeyFormat s
                 = (Ok key, (GetRandomBytes (KeySize keyFormat) s).2)).
  { unfold NewKey, hmacKeyManager.NewKey.
    destruct (Z.eqb_spec (len serializedKeyFormat) 0) as [Hz | _];
      [apply len_0_nil in Hz; contradiction |].
    rewrite Hparse. rewrite Hval.
    subst key. destruct (GetRandomBytes (KeySize keyFormat) s); reflexivity. }
  repeat split.
  - exact Hnew.
  - intros serializedKey Hser. unfold NewKeyData, hmacKeyManager.NewKeyData.
    fold NewKey. rewrite Hnew, Hser. reflexivity.
  - unfold DeriveKey, hmacKeyManager.DeriveKey.
    destruct (Z.eqb_spec (len serializedKeyFormat) 0) as [Hz | _];
      [apply len_0_nil in Hz; contradiction |].
    rewrite Hparse. rewrite Hval.
    unfold keyset.ValidateKeyVersion, hmacKeyManager.hmacKeyVersion.
    destruct (Z.ltb_spec 0 (Format_Version keyFormat)); [eauto | lia].
Qed.

End HmacKeys.

Lemma fixture_parsesTo :
  hmacKeyManager.parsesTo HashType_name ValidateHMACParams
    serializedHmacKeyFormat (fixtureKeyFormat 0).
Proof. split; [discriminate | split; reflexivity]. Qed.

Lemma fixture_parsesTo_V1 :
  hmacKeyManager.parsesTo HashType_name ValidateHMACParams
    serializedHmacKeyFormatV1 (fixtureKeyFormat 1).
Proof. split; [discriminate | split; reflexivity]. Qed.

Lemma DeriveKey_spec_witness :
  hmacKeyManager.DeriveKey HashType_name ValidateHMACParams
    serializedHmacKeyFormat (replicate 40 x11)
  = (Ok {| hmacpb.Version := 0;
           hmacpb.Params := Some {| hmacpb.Hash := 3; hmacpb.TagSize := 16 |};
           hmacpb.KeyValue := replicate 32 x11 |},
     replicate 8 x11)
  /\ (exists e,
        (hmacKeyManager.DeriveKey HashType_name ValidateHMACParams
           serializedHmacKeyFormat []).1 = Err e)
  /\ (hmacKeyManager.DeriveKey HashType_name ValidateHMACParams
        serializedHmacKeyFormat (replicate 32 x11 ++ [x22])).1
     = (hmacKeyManager.DeriveKey HashType_name ValidateHMACParams
          serializedHmacKeyFormat (replicate 40 x11)).1.
Proof.
  assert (Hver : hmacpb.Format_Version (fixtureKeyFormat 0) <= 0)
    by (cbn; lia).
  split; [| split].
  - apply (proj1 (DeriveKey_spec HashType_name ValidateHMACParams
                    serializedHmacKeyFormat (fixtureKeyFormat 0)
                    (replicate 40 x11) fixture_parsesTo Hver)).
    vm_compute; first [reflexivity | discriminate].
  - apply (proj1 (proj2 (DeriveKey_spec HashType_name ValidateHMACParams
                    serializedHmacKeyFormat (fixtureKeyFormat 0)
                    [] fixture_parsesTo Hver))).
    vm_compute; first [reflexivity | discriminate].
  - apply (proj2 (proj2 (DeriveKey_spec HashType_name ValidateHMACParams
                    serializedHmacKeyFormat (fixtureKeyFormat 0)
                    (replicate 40 x11) fixture_parsesTo Hver))).
    reflexivity.
Defined.

Lemma NewKey_ignores_format_version_witness :
  hmacKeyManager.NewKey HashType_name ValidateHMACParams
    serializedHmacKeyFormatV1 tt
  = (Ok {| hmacpb.Version := 0;
           hmacpb.Params := Some {| hmacpb.Hash := 3; hmacpb.TagSize := 16 |};
           hmacpb.KeyValue := replicate 32 x07 |}, tt)
  /\ (hmacKeyManager.NewKeyData HashType_name ValidateHMACParams
        serializedHmacKeyFormatV1 tt).1
     = Ok {| tinkpb.KeyData_TypeUrl := hmacKeyManager.hmacTypeURL;
             tinkpb.KeyData_Value := [x00; x03; x10] ++ replicate 32 x07;
             tinkpb.KeyData_KeyMaterialType := tinkpb.SYMMETRIC |}
  /\ exists e,
      hmacKeyManager.DeriveKey HashType_name ValidateHMACParams
        serializedHmacKeyFormatV1 (replicate 40 x11)
      = (Err (Errorf "hmac_key_manager: invalid key version: " e),
         replicate 40 x11).
Proof.
  assert (Hver : 0 < hmacpb.Format_Version (fixtureKeyFormat 1))
    by (cbn; lia).
  pose proof (NewKey_ignores_format_version HashType_name ValidateHMACParams
                serializedHmacKeyFormatV1 (fixtureKeyFormat 1) tt
                (replicate 40 x11) fixture_parsesTo_V1 Hver) as (Hnew & Hdata & Hderive).
  split; [exact Hnew | split; [| exact Hderive]].
  apply Hdata. reflexivity.
Defined.

(** ** XChaCha20Poly1305 *)

Section XChaCha.

Import chacha20poly1305.

Variable uintBits : Z.
Context `{RS : RandomSource}.
Variable NewX : bytes -> result AEAD.

(** C10. On a ciphertext of fewer than 40 bytes [Decrypt] returns the
    "ciphertext too short" error and calls nothing: neither [NewX] nor
    [Open] appears in the trace. *)
Theorem Decrypt_short_ciphertext (x : xchacha.XChaCha20Poly1305)
    (ciphertext associatedData : bytes) :
  len ciphertext < 40 ->
  xchacha.Decrypt NewX x ciphertext associatedData
  = (Err "xchacha20poly1305: ciphertext too short"%string, []).
Proof.
  intros Hlen. unfold xchacha.Decrypt, NonceSizeX, xchacha.poly1305TagSize.
  destruct (Z.ltb_spec (len ciphertext) (24 + 16)); [reflexivity | lia].
Qed.

(** C7. Under the contract of the cipher, for a 32-byte key and a plaintext
    within the length bound, [Encrypt] returns a ciphertext that [Decrypt]
    turns back into the plaintext, for the same associated data. *)
Theorem Decrypt_Encrypt (key plaintext associatedData : bytes) (s : Rand) :
  XChaChaContract NewX ->
  len key = 32 ->
  len plaintext <= xchacha.maxInt uintBits - 24 - 16 ->
  let x := {| xchacha.Key := key |} in
  exists ciphertext,
    (value (xchacha.Encrypt uintBits NewX x plaintext associatedData s)).1
    = Ok ciphertext
    /\ value (xchacha.Decrypt NewX x ciphertext associatedData) = Ok plaintext.
Proof.
  intros Hcontract Hkey Hbound x.
  destruct (Hcontract key Hkey) as (c & Hnew & Hseal).
  pose proof (GetRandomBytes_len NonceSizeX s) as Hnonce.
  unfold xchacha.Encrypt, xchacha.Decrypt, xchacha.callNewX, xchacha.callSeal,
    xchacha.callOpen, xchacha.poly1305TagSize, Overhead_, NonceSizeX in *.
  destruct (GetRandomBytes 24 s) as [nounce s'] eqn:Hrand.
  cbn [fst] in Hnonce. specialize (Hnonce ltac:(lia)).
  destruct (Hseal ([] ++ nounce) nounce plaintext associatedData Hnonce)
    as (sealed & Hs & Hslen & Hopen).
  assert (Hn : Z.to_nat 24 = length nounce) by (unfold len in Hnonce; lia).
  exists (nounce ++ sealed). split.
  - destruct (Z.ltb_spec (xchacha.maxInt uintBits - 24 - 16) (len plaintext));
      [lia |].
    cbn [xchacha.Key x]. rewrite value_bind.
    change (value (emit (xchacha.CallNewX key);; ret (NewX key)))
      with (NewX key).
    rewrite Hnew, value_bind.
    change (value (emit (xchacha.CallSeal ([] ++ nounce) nounce plaintext
                           associatedData);;
                   ret (Seal c ([] ++ nounce) nounce plaintext associatedData)))
      with (Seal c ([] ++ nounce) nounce plaintext associatedData).
    rewrite Hs. reflexivity.
  - assert (Hct : len (nounce ++ sealed) = 24 + len plaintext + 16)
      by (rewrite len_app, Hnonce, Hslen; lia).
    pose proof (len_nonneg plaintext).
    destruct (Z.ltb_spec (len (nounce ++ sealed)) (24 + 16)); [lia |].
    cbn [xchacha.Key x]. rewrite value_bind.
    change (value (emit (xchacha.CallNewX key);; ret (NewX key)))
      with (NewX key).
    rewrite Hnew, value_bind.
    rewrite (take_app_length' _ _ _ Hn), (drop_app_length' _ _ _ Hn).
    change (value (emit (xchacha.CallOpen [] nounce sealed associatedData);;
                   ret (Open c [] nounce sealed associatedData)))
      with (Open c [] nounce sealed associatedData).
    rewrite Hopen. reflexivity.
Qed.

End XChaCha.

Lemma toyNewX_contract : XChaChaContract toyNewX.
Proof.
  intros key Hkey. exists toyAEAD. split.
  - unfold toyNewX. rewrite Hkey. reflexivity.
  - intros dst nonce plaintext ad _. exists (plaintext ++ replicate 16 x00).
    split; [reflexivity |]. split.
    + rewrite len_app, len_replicate. reflexivity.
    + unfold toyAEAD, chacha20poly1305.Open.
      rewrite length_app, length_replicate.
      replace (length plaintext + 16 - 16)%nat with (length plaintext) by lia.
      rewrite drop_app_length, take_app_length.
      destruct (decide _); [reflexivity | contradiction].
Qed.

Lemma Decrypt_Encrypt_witness :
  exists ciphertext,
    (value (xchacha.Encrypt (RS := fixedRandom) 64 toyNewX
              {| xchacha.Key := key32 |} [x68; x69] [x61] tt)).1
    = Ok ciphertext
    /\ value (xchacha.Decrypt toyNewX {| xchacha.Key := key32 |}
               ciphertext [x61]) = Ok [x68; x69].
Proof.
  apply (Decrypt_Encrypt (RS := fixedRandom) 64 toyNewX key32 [x68; x69]
           [x61] tt).
  - exact toyNewX_contract.
  - reflexivity.
  - vm_compute. discriminate.
Defined.

Lemma Decrypt_short_ciphertext_witness :
  xchacha.Decrypt toyNewX {| xchacha.Key := key32 |} (replicate 39 x00) [x61]
  = (Err "xchacha20poly1305: ciphertext too short"%string, []).
Proof.
  apply Decrypt_short_ciphertext. vm_compute. reflexivity.
Defined.

(** ** Key template factories *)

Section Templates.

Import tinkerror templates.

Context `{ProtoMessage hpkepb.HpkeKeyFormat}.
Context `{ProtoMessage eciespb.EciesAeadHkdfKeyFormat}.
Context `{ProtoMessage ecdsapb.EcdsaKeyFormat}.
Context `{ProtoMessage rsppb.RsaSsaPkcs1KeyFormat}.
Context `{ProtoMessage rspsspb.RsaSsaPssKeyFormat}.
Context `{ProtoMessage aspb.AesSivKeyFormat}.
Variable hpkePrivateKeyTypeURL : string.

Lemma factory_steps (typeURL : string) (r : result bytes)
    (prefixType : tinkpb.OutputPrefixType) :
  andThen (failOnError r)
    (fun _ => Done {| tinkpb.TypeUrl := typeURL;
                      tinkpb.Value := bytesOf r;
                      tinkpb.OutputPrefixType_ := prefixType |})
  = templateOf typeURL r prefixType.
Proof. destruct r; reflexivity. Qed.

(** C8. Every factory that serializes a key format ends the process when
    [proto.Marshal] fails, and otherwise returns the template made of its
    type URL, the serialized format and the prefix type it was asked for
    (TINK where the factory takes none); the two Ed25519 factories
    serialize nothing and return a template with an empty value. *)
Theorem key_template_factories :
  (forall kem kdf aead outputPrefixType,
     createHPKEKeyTemplate hpkePrivateKeyTypeURL kem kdf aead outputPrefixType
     = templateOf hpkePrivateKeyTypeURL
         (Marshal {| hpkepb.Params :=
                       Some {| hpkepb.Kem := kem; hpkepb.Kdf := kdf;
                               hpkepb.Aead := aead |} |})
         outputPrefixType)
  /\ (forall c ht ptfmt dekT salt,
      createECIESAEADHKDFKeyTemplate c ht ptfmt dekT salt
      = templateOf eciesPrivateKeyTypeURL
          (Marshal {| eciespb.Params := Some {|
                        eciespb.KemParams := {| eciespb.CurveType := c;
                                                eciespb.HkdfHashType := ht;
                                                eciespb.HkdfSalt := salt |};
                        eciespb.DemParams := {| eciespb.AeadDem := dekT |};
                        eciespb.EcPointFormat_ := ptfmt |} |})
          tinkpb.TINK)
  /\ (forall hashType curve encoding prefixType,
      createECDSAKeyTemplate hashType curve encoding prefixType
      = templateOf ecdsaSignerTypeURL
          (Marshal {| ecdsapb.Params :=
                        Some {| ecdsapb.HashType_ := hashType;
                                ecdsapb.Curve := curve;
                                ecdsapb.Encoding := encoding |} |})
          prefixType)
  /\ (forall prefixType hashType modulusSizeInBits,
      create_RSA_SSA_PKCS1_Template prefixType hashType modulusSizeInBits
      = templateOf rsaSSAPKCS1SignerTypeURL
          (Marshal {| rsppb.Params := Some {| rsppb.HashType_ := hashType |};
                      rsppb.ModulusSizeInBits := modulusSizeInBits;
                      rsppb.PublicExponent := [x01; x00; x01] |})
          prefixType)
  /\ (forall prefixType hashType saltLength modulusSizeInBits,
      create_RSA_SSA_PSS_Template prefixType hashType saltLength
        modulusSizeInBits
      = templateOf rsaSSAPSSSignerTypeURL
          (Marshal {| rspsspb.Params :=
                        Some {| rspsspb.SigHash := hashType;
                                rspsspb.Mgf1Hash := hashType;
                                rspsspb.SaltLength := saltLength |};
                      rspsspb.ModulusSizeInBits := modulusSizeInBits;
                      rspsspb.PublicExponent := [x01; x00; x01] |})
          prefixType)
  /\ AESSIVKeyTemplate
     = templateOf aesSivTypeURL
         (Marshal {| aspb.KeySize := 64; aspb.Version := 0 |}) tinkpb.TINK
  /\ ED25519KeyTemplate = templateOf ed25519SignerTypeURL (Ok []) tinkpb.TINK
  /\ ED25519KeyWithoutPrefixTemplate
     = templateOf ed25519SignerTypeURL (Ok []) tinkpb.RAW.
Proof.
  repeat split; intros;
    unfold createHPKEKeyTemplate, createECIESAEADHKDFKeyTemplate,
      createECDSAKeyTemplate, create_RSA_SSA_PKCS1_Template,
      create_RSA_SSA_PSS_Template, AESSIVKeyTemplate;
    cbn zeta; first [apply factory_steps | reflexivity].
Qed.

(** A template is returned only with the bytes [proto.Marshal] gave. *)
Lemma templateOf_Done (typeURL : string) (r : result bytes)
    (prefixType : tinkpb.OutputPrefixType) (t : tinkpb.KeyTemplate) :
  templateOf typeURL r prefixType = Done t ->
  r = Ok (tinkpb.Value t) /\ tinkpb.TypeUrl t = typeURL
  /\ tinkpb.OutputPrefixType_ t = prefixType.
Proof. destruct r; [intros [= <-]; auto | discriminate]. Qed.

End Templates.

(** ** wrappedMAC.VerifyMAC: what the raw entries are given *)

(** Every call the second loop makes on a primitive has the MAC and the
    data the loop was entered with. *)
Lemma verifyRaw_calls (m : mac.wrappedMAC) (mac_ data : bytes)
    (entries : list Entry) (keyID : Z) (mac' data' : bytes) :
  PrimitiveVerifyMAC keyID mac' data'
    ∈ trace (mac.verifyRaw m mac_ data entries) ->
  mac' = mac_ /\ data' = data.
Proof.
  induction entries as [| e rest IH].
  - cbn. intros Hin. inversion Hin.
  - rewrite verifyRaw_cons.
    destruct (tink.VerifyMAC (Primitive e) mac_ data); cbn;
      rewrite !elem_of_cons.
    + intros [[= _ -> ->] | [Hlog | Hnil]];
        [auto | discriminate Hlog | inversion Hnil].
    + intros [[= _ -> ->] | Hin]; [auto | exact (IH Hin)].
Qed.

(** When no LEGACY entry is filed under the first five bytes of the MAC,
    the raw entries are given the caller's MAC and data. *)
Lemma VerifyMAC_raw_data_unmodified (uintBits : Z) (m : mac.wrappedMAC)
    (mac_ data data' : bytes) :
  Forall (fun e => PrefixType e <> tinkpb.LEGACY)
    (default [] (Entries (mac.ps m) !! string_of_list_byte (take 5 mac_))) ->
  value (mac.verifyNonRaw uintBits m (drop 5 mac_)
           (default [] (Entries (mac.ps m)
                          !! string_of_list_byte (take 5 mac_))) data)
  = Continue data' ->
  data' = data.
Proof.
  intros Hno Hcont. apply verifyNonRaw_carries in Hcont.
  rewrite Hcont. apply carried_no_legacy. exact Hno.
Qed.

(* ===================================================================== *)
(** * Further properties *)
(* ===================================================================== *)

Import observations.

(** ** wrappedMAC.VerifyMAC: value and trace in terms of the two loops *)

Lemma carried_replicate (entries : list Entry) (data : bytes) :
  carried entries data = data ++ replicate (legacyCount entries) x00.
Proof.
  revert data. induction entries as [| e rest IH]; intros data; cbn [carried].
  - unfold legacyCount. cbn. rewrite app_nil_r. reflexivity.
  - rewrite IH. unfold suffixed, legacyCount. rewrite filter_cons.
    destruct (decide (PrefixType e = tinkpb.LEGACY)); [| reflexivity].
    cbn [length replicate]. rewrite <- app_assoc. reflexivity.
Qed.

Lemma VerifyMAC_long_eq (uintBits : Z) (m : mac.wrappedMAC)
    (mac_ data : bytes) :
  5 < len mac_ ->
  mac.VerifyMAC uintBits m mac_ data
  = let r1 := mac.verifyNonRaw uintBits m (drop 5 mac_)
                (bucketOf (mac.ps m) mac_) data in
    match value r1 with
    | Return r => (r, trace r1)
    | Continue data' =>
        let r2 := mac.verifyRaw m mac_ data' (Raw (mac.ps m)) in
        match value r2 with
        | Return r => (r, trace r1 ++ trace r2)
        | Continue _ =>
            (Err mac.errInvalidMAC,
             trace r1 ++ trace r2 ++ [LogFailure (mac.wm_verifyLogger m)])
        end
    end.
Proof.
  intros Hlen. unfold mac.VerifyMAC, cryptofmt.NonRawPrefixSize, bucketOf.
  destruct (Z.leb_spec (len mac_) 5) as [Hle | _]; [lia |].
  unfold EntriesForPrefix, RawEntries. change (Z.to_nat 5) with 5%nat.
  cbn zeta. unfold bind at 1. unfold value, trace.
  destruct (mac.verifyNonRaw _ _ _ _ _) as [[r | data'] t1]; cbn [fst snd].
  - cbn. rewrite app_nil_r. reflexivity.
  - unfold bind at 1.
    destruct (mac.verifyRaw _ _ _ _) as [[r | u] t2]; cbn.
    + rewrite app_nil_r. reflexivity.
    + reflexivity.
Qed.

Section LoopTraces.

Variable uintBits : Z.
Variable m : mac.wrappedMAC.

Let logger := mac.wm_verifyLogger m.

Lemma loopTrace_step {S} (ev : Event) (r : W Event (flow (result unit) S)) :
  isVerifyCall ev -> loopTrace logger r ->
  loopTrace logger (value r, ev :: trace r).
Proof.
  unfold loopTrace. cbn [value trace fst snd]. intros Hev.
  destruct (value r) as [res | s].
  - intros (calls & ev' & -> & Hcalls & Hclose).
    exists (ev :: calls), ev'. repeat split; [constructor; assumption | assumption].
  - intros Hcalls. constructor; assumption.
Qed.

Lemma verifyNonRaw_trace (macNoPrefix : bytes) (entries : list Entry)
    (data : bytes) :
  loopTrace logger (mac.verifyNonRaw uintBits m macNoPrefix entries data).
Proof.
  revert data. induction entries as [| e rest IH]; intros data.
  - cbn. constructor.
  - destruct (decide (PrefixType e = tinkpb.LEGACY
                      /\ mac.maxInt uintBits <= len data)) as [[Hleg Hge] | Hb].
    + rewrite verifyNonRaw_cons_too_long by assumption.
      exists [], (LogFailure logger). repeat split. constructor.
    + rewrite verifyNonRaw_cons by assumption. cbn zeta.
      destruct (tink.VerifyMAC _ _ _).
      * exists [PrimitiveVerifyMAC (KeyID e) macNoPrefix
                  (suffixed (PrefixType e) data)],
          (Log logger (KeyID e) (len (suffixed (PrefixType e) data))).
        repeat split; [repeat constructor | eexists _, _; reflexivity].
      * apply loopTrace_step; [exact I | apply IH].
Qed.

Lemma verifyRaw_trace (mac_ data : bytes) (entries : list Entry) :
  loopTrace logger (mac.verifyRaw m mac_ data entries).
Proof.
  induction entries as [| e rest IH].
  - cbn. constructor.
  - rewrite verifyRaw_cons. destruct (tink.VerifyMAC _ _ _).
    + exists [PrimitiveVerifyMAC (KeyID e) mac_ data],
        (Log logger (KeyID e) (len data)).
      repeat split; [repeat constructor | eexists _, _; reflexivity].
    + apply loopTrace_step; [exact I | apply IH].
Qed.

(** X1. Every call of [VerifyMAC] ends with exactly one call on the verify
    logger, [Log] when it returns nil and [LogFailure] when it returns an
    error; everything before it in the trace is a call of [VerifyMAC] on an
    entry's primitive. *)
Theorem VerifyMAC_logs_once (mac_ data : bytes) :
  exists calls ev,
    trace (mac.VerifyMAC uintBits m mac_ data) = calls ++ [ev]
    /\ Forall isVerifyCall calls
    /\ closes logger (value (mac.VerifyMAC uintBits m mac_ data)) ev.
Proof.
  destruct (Z.le_gt_cases (len mac_) 5) as [Hshort | Hlong].
  - exists [], (LogFailure logger).
    unfold mac.VerifyMAC, cryptofmt.NonRawPrefixSize.
    destruct (Z.leb_spec (len mac_) 5); [| lia].
    repeat split. constructor.
  - rewrite VerifyMAC_long_eq by lia. cbn zeta.
    pose proof (verifyNonRaw_trace (drop 5 mac_) (bucketOf (mac.ps m) mac_)
                  data) as H1.
    unfold loopTrace in H1.
    destruct (value (mac.verifyNonRaw _ _ _ _ _)) as [r | data'].
    + exact H1.
    + pose proof (verifyRaw_trace mac_ data' (Raw (mac.ps m))) as H2.
      unfold loopTrace in H2.
      destruct (value (mac.verifyRaw _ _ _ _)) as [r | u].
      * destruct H2 as (calls & ev & Ht & Hcalls & Hclose).
        exists (trace (mac.verifyNonRaw uintBits m (drop 5 mac_)
                         (bucketOf (mac.ps m) mac_) data) ++ calls), ev.
        cbn [value trace fst snd]. rewrite Ht, app_assoc.
        repeat split; [apply Forall_app; split; assumption | assumption].
      * exists (trace (mac.verifyNonRaw uintBits m (drop 5 mac_)
                         (bucketOf (mac.ps m) mac_) data)
                ++ trace (mac.verifyRaw m mac_ data' (Raw (mac.ps m)))),
          (LogFailure logger).
        cbn [value trace fst snd]. rewrite app_assoc.
        repeat split. apply Forall_app; split; assumption.
Qed.

End LoopTraces.

(** ** wrappedMAC.ComputeMAC: one logger call, at most one primitive call *)

(** X2. Every call of [ComputeMAC] makes at most one call on a primitive,
    a [ComputeMAC] on the primary's, and ends with exactly one call on the
    compute logger: [Log] when it returns a MAC, [LogFailure] when it
    returns an error. *)
Theorem ComputeMAC_logs_once (uintBits : Z) (m : mac.wrappedMAC)
    (data : bytes) :
  exists calls ev,
    trace (mac.ComputeMAC uintBits m data) = calls ++ [ev]
    /\ (calls = []
        \/ exists d, calls = [PrimitiveComputeMAC (KeyID (Primary (mac.ps m))) d])
    /\ closes (mac.wm_computeLogger m)
         (value (mac.ComputeMAC uintBits m data)) ev.
Proof.
  destruct (decide (PrefixType (Primary (mac.ps m)) = tinkpb.LEGACY
                    /\ mac.maxInt uintBits <= len data)) as [[Hleg Hge] | Hb].
  - exists [], (LogFailure (mac.wm_computeLogger m)).
    unfold mac.ComputeMAC.
    destruct (decide (PrefixType (Primary (mac.ps m)) = tinkpb.LEGACY));
      [| contradiction].
    destruct (Z.leb_spec (mac.maxInt uintBits) (len data)); [| lia].
    repeat split. left; reflexivity.
  - rewrite (ComputeMAC_after_suffix uintBits m data _ eq_refl Hb).
    destruct (tink.ComputeMAC _ _) as [tag | err].
    + eexists [_], _. split; [reflexivity |].
      split; [right; eexists; reflexivity | eexists _, _; reflexivity].
    + eexists [_], _. split; [reflexivity |].
      split; [right; eexists; reflexivity | reflexivity].
Qed.

(** A MAC returned by [ComputeMAC] is the primary's prefix followed by the
    tag its primitive computed. *)
Lemma ComputeMAC_Ok_inv (uintBits : Z) (m : mac.wrappedMAC)
    (data mac_ : bytes) :
  value (mac.ComputeMAC uintBits m data) = Ok mac_ ->
  let p := Primary (mac.ps m) in
  ~ (PrefixType p = tinkpb.LEGACY /\ mac.maxInt uintBits <= len data)
  /\ exists tag,
       tink.ComputeMAC (Primitive p) (suffixed (PrefixType p) data) = Ok tag
       /\ mac_ = Prefix p ++ tag.
Proof.
  intros Hok p.
  destruct (decide (PrefixType p = tinkpb.LEGACY
                    /\ mac.maxInt uintBits <= len data)) as [[Hleg Hge] | Hb].
  - exfalso. revert Hok. unfold mac.ComputeMAC. fold p.
    destruct (decide (PrefixType p = tinkpb.LEGACY)); [| contradiction].
    destruct (Z.leb_spec (mac.maxInt uintBits) (len data)); [| lia].
    discriminate.
  - split; [exact Hb |].
    rewrite (ComputeMAC_after_suffix uintBits m data _ eq_refl Hb) in Hok.
    fold p in Hok.
    destruct (tink.ComputeMAC _ _) as [tag | err]; [| discriminate Hok].
    exists tag. split; [reflexivity |].
    cbn in Hok. injection Hok as <-. reflexivity.
Qed.

(** ** wrappedMAC.VerifyMAC: what it can return *)

Section VerifyOutcomes.

Variable uintBits : Z.
Variable m : mac.wrappedMAC.

Lemma verifyRaw_outcome (mac_ data : bytes) (entries : list Entry) :
  let v := value (mac.verifyRaw m mac_ data entries) in
  v = Return (Ok tt) \/ v = Continue tt.
Proof.
  induction entries as [| e rest IH]; cbn zeta.
  - right. reflexivity.
  - rewrite verifyRaw_cons.
    destruct (tink.VerifyMAC _ _ _); [left; reflexivity | exact IH].
Qed.

Lemma verifyNonRaw_error (macNoPrefix : bytes) (entries : list Entry)
    (data : bytes) (err : error) :
  value (mac.verifyNonRaw uintBits m macNoPrefix entries data)
  = Return (Err err) ->
  err = mac.errDataTooLong
  /\ Exists (fun e => PrefixType e = tinkpb.LEGACY) entries.
Proof.
  revert data. induction entries as [| e rest IH]; intros data.
  - cbn. discriminate.
  - destruct (decide (PrefixType e = tinkpb.LEGACY
                      /\ mac.maxInt uintBits <= len data)) as [[Hleg Hge] | Hb].
    + rewrite verifyNonRaw_cons_too_long by assumption.
      intros [= <-]. split; [reflexivity | left; exact Hleg].
    + rewrite verifyNonRaw_cons by assumption. cbn zeta.
      destruct (tink.VerifyMAC _ _ _); [discriminate |].
      intros Hrest. destruct (IH _ Hrest) as [-> Hex].
      split; [reflexivity | right; exact Hex].
Qed.

(** X3. [VerifyMAC] returns nil, the invalid-MAC error or the
    data-too-long error, and the last only when a LEGACY entry is filed
    under the first five bytes of the MAC: the errors of the primitives are
    never returned. *)
Theorem VerifyMAC_error_kinds (mac_ data : bytes) :
  let v := value (mac.VerifyMAC uintBits m mac_ data) in
  v = Ok tt
  \/ v = Err mac.errInvalidMAC
  \/ (v = Err mac.errDataTooLong
      /\ 5 < len mac_
      /\ Exists (fun e => PrefixType e = tinkpb.LEGACY)
           (bucketOf (mac.ps m) mac_)).
Proof.
  cbn zeta. destruct (Z.le_gt_cases (len mac_) 5) as [Hshort | Hlong].
  - right; left. unfold mac.VerifyMAC, cryptofmt.NonRawPrefixSize.
    destruct (Z.leb_spec (len mac_) 5); [reflexivity | lia].
  - rewrite VerifyMAC_long_eq by lia. cbn zeta.
    pose proof (verifyNonRaw_outcome uintBits m (drop 5 mac_)
                  (bucketOf (mac.ps m) mac_) data) as H1. cbn zeta in H1.
    destruct (value (mac.verifyNonRaw _ _ _ _ _)) as [r | data'] eqn:Hv.
    + destruct r as [[] | err]; [left; reflexivity |].
      destruct (verifyNonRaw_error _ _ _ _ Hv) as [-> Hex].
      right; right. repeat split; [lia | exact Hex].
    + pose proof (verifyRaw_outcome mac_ data' (Raw (mac.ps m))) as H2.
      cbn zeta in H2.
      destruct H2 as [-> | ->]; [left | right; left]; reflexivity.
Qed.

End VerifyOutcomes.

(** ** wrappedMAC.VerifyMAC does not read the primary *)

Lemma verifyNonRaw_logger (uintBits : Z) (m m' : mac.wrappedMAC)
    (macNoPrefix : bytes) (entries : list Entry) (data : bytes) :
  mac.wm_verifyLogger m = mac.wm_verifyLogger m' ->
  mac.verifyNonRaw uintBits m macNoPrefix entries data
  = mac.verifyNonRaw uintBits m' macNoPrefix entries data.
Proof.
  intros Hlog. revert data. induction entries as [| e rest IH]; intros data.
  - reflexivity.
  - destruct (decide (PrefixType e = tinkpb.LEGACY
                      /\ mac.maxInt uintBits <= len data)) as [[Hleg Hge] | Hb].
    + rewrite !verifyNonRaw_cons_too_long by assumption. rewrite Hlog.
      reflexivity.
    + rewrite !verifyNonRaw_cons by assumption. cbn zeta.
      rewrite Hlog, IH. reflexivity.
Qed.

Lemma verifyRaw_logger (m m' : mac.wrappedMAC) (mac_ data : bytes)
    (entries : list Entry) :
  mac.wm_verifyLogger m = mac.wm_verifyLogger m' ->
  mac.verifyRaw m mac_ data entries = mac.verifyRaw m' mac_ data entries.
Proof.
  intros Hlog. induction entries as [| e rest IH].
  - reflexivity.
  - rewrite !verifyRaw_cons. rewrite Hlog, IH. reflexivity.
Qed.

(** X4. [VerifyMAC] depends on the primitive set only through the entries
    filed by prefix and the raw entries: two wrapped MACs that differ in
    their primary or in their compute logger verify alike, with the same
    calls (so a MAC keeps verifying after the primary is rotated). *)
Theorem VerifyMAC_ignores_primary (uintBits : Z) (m m' : mac.wrappedMAC)
    (mac_ data : bytes) :
  Entries (mac.ps m) = Entries (mac.ps m') ->
  Raw (mac.ps m) = Raw (mac.ps m') ->
  mac.wm_verifyLogger m = mac.wm_verifyLogger m' ->
  mac.VerifyMAC uintBits m mac_ data = mac.VerifyMAC uintBits m' mac_ data.
Proof.
  intros He Hr Hlog.
  destruct (Z.le_gt_cases (len mac_) 5) as [Hshort | Hlong].
  - unfold mac.VerifyMAC, cryptofmt.NonRawPrefixSize.
    destruct (Z.leb_spec (len mac_) 5); [| lia]. rewrite Hlog. reflexivity.
  - rewrite !VerifyMAC_long_eq by lia. unfold bucketOf. cbn zeta.
    rewrite <- He, <- Hr, <- Hlog.
    rewrite (verifyNonRaw_logger uintBits m m') by exact Hlog.
    destruct (value (mac.verifyNonRaw _ m' _ _ _)) as [r | data'];
      [reflexivity |].
    rewrite (verifyRaw_logger m m') by exact Hlog. reflexivity.
Qed.

Lemma VerifyMAC_ignores_primary_witness :
  mac.VerifyMAC 64 (wrap psTinkRaw)
    [x01; x01; x02; x03; x04; x54; x31; x68; x69] [x68; x69]
  = mac.VerifyMAC 64 (wrap psRawTink)
      [x01; x01; x02; x03; x04; x54; x31; x68; x69] [x68; x69].
Proof.
  apply (VerifyMAC_ignores_primary 64 (wrap psTinkRaw) (wrap psRawTink));
    reflexivity.
Defined.

(** ** wrappedMAC.VerifyMAC accepts only what a primitive accepted *)

Section VerifySound.

Variable uintBits : Z.
Variable m : mac.wrappedMAC.

Lemma legacyCount_cons (e : Entry) (rest : list Entry) :
  legacyCount (e :: rest)
  = ((if decide (PrefixType e = tinkpb.LEGACY) then 1 else 0)
     + legacyCount rest)%nat.
Proof.
  unfold legacyCount. rewrite filter_cons.
  destruct (decide (PrefixType e = tinkpb.LEGACY)); reflexivity.
Qed.

Lemma suffixed_replicate (e : Entry) (data : bytes) :
  suffixed (PrefixType e) data
  = data ++ replicate (if decide (PrefixType e = tinkpb.LEGACY) then 1 else 0)%nat
              x00.
Proof.
  unfold suffixed. destruct (decide _); cbn; [| rewrite app_nil_r]; reflexivity.
Qed.

Lemma verifyNonRaw_sound (macNoPrefix : bytes) (entries : list Entry)
    (data : bytes) :
  value (mac.verifyNonRaw uintBits m macNoPrefix entries data)
  = Return (Ok tt) ->
  exists e j, e ∈ entries /\ (j <= legacyCount entries)%nat
    /\ accepts e macNoPrefix (data ++ replicate j x00).
Proof.
  revert data. induction entries as [| e rest IH]; intros data.
  - cbn. discriminate.
  - destruct (decide (PrefixType e = tinkpb.LEGACY
                      /\ mac.maxInt uintBits <= len data)) as [[Hleg Hge] | Hb].
    + rewrite verifyNonRaw_cons_too_long by assumption. discriminate.
    + rewrite verifyNonRaw_cons by assumption. cbn zeta.
      rewrite legacyCount_cons, suffixed_replicate.
      destruct (tink.VerifyMAC (Primitive e) macNoPrefix _) as [[] |] eqn:Hv.
      * intros _. eexists e, _. split; [left |]. split; [| exact Hv]. lia.
      * intros Hrest. destruct (IH _ Hrest) as (e' & j & Hin & Hj & Hacc).
        exists e', ((if decide (PrefixType e = tinkpb.LEGACY) then 1 else 0)
                    + j)%nat.
        split; [right; exact Hin |]. split; [lia |].
        rewrite replicate_add, app_assoc. exact Hacc.
Qed.

Lemma verifyRaw_sound (mac_ data : bytes) (entries : list Entry) :
  value (mac.verifyRaw m mac_ data entries) = Return (Ok tt) ->
  exists e, e ∈ entries /\ accepts e mac_ data.
Proof.
  induction entries as [| e rest IH].
  - cbn. discriminate.
  - rewrite verifyRaw_cons.
    destruct (tink.VerifyMAC (Primitive e) mac_ data) as [[] |] eqn:Hv.
    + intros _. exists e. split; [left | exact Hv].
    + intros Hrest. destruct (IH Hrest) as (e' & Hin & Hacc).
      exists e'. split; [right; exact Hin | exact Hacc].
Qed.

(** X5. When [VerifyMAC] returns nil, the MAC has more than five bytes and
    the primitive of some entry accepted: an entry filed under the first
    five bytes, for the MAC without them, or a raw entry, for the whole
    MAC. The data it accepted is the caller's followed by at most one zero
    byte per LEGACY entry of that bucket. *)
Theorem VerifyMAC_sound (mac_ data : bytes) :
  value (mac.VerifyMAC uintBits m mac_ data) = Ok tt ->
  5 < len mac_
  /\ exists e j,
       (j <= legacyCount (bucketOf (mac.ps m) mac_))%nat
       /\ ((e ∈ bucketOf (mac.ps m) mac_
            /\ accepts e (drop 5 mac_) (data ++ replicate j x00))
           \/ (e ∈ Raw (mac.ps m)
               /\ accepts e mac_ (data ++ replicate j x00))).
Proof.
  destruct (Z.le_gt_cases (len mac_) 5) as [Hshort | Hlong].
  - unfold mac.VerifyMAC, cryptofmt.NonRawPrefixSize.
    destruct (Z.leb_spec (len mac_) 5); [discriminate | lia].
  - rewrite VerifyMAC_long_eq by lia. cbn zeta. intros Hok.
    split; [lia |].
    destruct (value (mac.verifyNonRaw _ _ _ _ _)) as [r | data'] eqn:Hv.
    + cbn in Hok. subst r.
      destruct (verifyNonRaw_sound _ _ _ Hv) as (e & j & Hin & Hj & Hacc).
      exists e, j. split; [exact Hj | left; split; assumption].
    + apply verifyNonRaw_carries in Hv. rewrite carried_replicate in Hv.
      destruct (value (mac.verifyRaw _ _ _ _)) as [r | u] eqn:Hr;
        [| discriminate Hok].
      cbn in Hok. subst r data'.
      destruct (verifyRaw_sound _ _ _ Hr) as (e & Hin & Hacc).
      exists e, (legacyCount (bucketOf (mac.ps m) mac_)).
      split; [lia | right; split; assumption].
Qed.

End VerifySound.

Lemma VerifyMAC_sound_witness :
  5 < len [x01; x01; x02; x03; x04; x54; x31; x68; x69]
  /\ exists e j,
       (j <= legacyCount (bucketOf psTinkRaw
                            [x01; x01; x02; x03; x04; x54; x31; x68; x69]))%nat
       /\ ((e ∈ bucketOf psTinkRaw [x01; x01; x02; x03; x04; x54; x31; x68; x69]
            /\ accepts e [x54; x31; x68; x69] ([x68; x69] ++ replicate j x00))
           \/ (e ∈ Raw psTinkRaw
               /\ accepts e [x01; x01; x02; x03; x04; x54; x31; x68; x69]
                    ([x68; x69] ++ replicate j x00))).
Proof.
  apply (VerifyMAC_sound 64 (wrap psTinkRaw)
           [x01; x01; x02; x03; x04; x54; x31; x68; x69] [x68; x69]).
  vm_compute. reflexivity.
Defined.

(** ** wrappedMAC.VerifyMAC when no LEGACY entry is filed under the prefix *)

Section VerifyWithoutLegacy.

Variable uintBits : Z.
Variable m : mac.wrappedMAC.

Lemma verifyNonRaw_accepts (macNoPrefix : bytes) (entries : list Entry)
    (data : bytes) (e : Entry) :
  Forall (fun e => PrefixType e <> tinkpb.LEGACY) entries ->
  e ∈ entries -> accepts e macNoPrefix data ->
  value (mac.verifyNonRaw uintBits m macNoPrefix entries data)
  = Return (Ok tt).
Proof.
  intros Hno Hin Hacc. induction Hin as [e rest | e e' rest _ IH];
    apply Forall_cons in Hno as [He Hrest];
    rewrite verifyNonRaw_cons by (intros [Hleg _]; contradiction);
    unfold suffixed; (destruct (decide _); [contradiction |]).
  - unfold accepts in Hacc. rewrite Hacc. reflexivity.
  - destruct (tink.VerifyMAC (Primitive e') macNoPrefix data);
      [reflexivity | exact (IH Hrest Hacc)].
Qed.

(** X6. For a MAC of more than five bytes with no LEGACY entry filed under
    its first five bytes, [VerifyMAC] returns nil exactly when the
    primitive of an entry of that bucket accepts the MAC without its
    prefix, or the primitive of a raw entry accepts the whole MAC, for the
    caller's data; otherwise it returns the invalid-MAC error. *)
Theorem VerifyMAC_without_legacy (mac_ data : bytes) :
  5 < len mac_ ->
  Forall (fun e => PrefixType e <> tinkpb.LEGACY) (bucketOf (mac.ps m) mac_) ->
  (value (mac.VerifyMAC uintBits m mac_ data) = Ok tt
   <-> (exists e, e ∈ bucketOf (mac.ps m) mac_ /\ accepts e (drop 5 mac_) data)
       \/ (exists e, e ∈ Raw (mac.ps m) /\ accepts e mac_ data))
  /\ (value (mac.VerifyMAC uintBits m mac_ data) = Ok tt
      \/ value (mac.VerifyMAC uintBits m mac_ data) = Err mac.errInvalidMAC).
Proof.
  intros Hlen Hno. rewrite VerifyMAC_long_eq by exact Hlen. cbn zeta.
  pose proof (verifyNonRaw_no_legacy uintBits m (drop 5 mac_) _ data Hno)
    as H1. cbn zeta in H1.
  destruct H1 as [H1 | H1]; rewrite H1.
  - split; [| left; reflexivity]. split; [| reflexivity]. intros _.
    destruct (verifyNonRaw_sound _ _ _ _ _ H1) as (e & j & Hin & Hj & Hacc).
    left. exists e. split; [exact Hin |].
    replace j with 0%nat in Hacc.
    + cbn in Hacc. rewrite app_nil_r in Hacc. exact Hacc.
    + assert (H0 : legacyCount (bucketOf (mac.ps m) mac_) = 0%nat).
      { unfold legacyCount. clear -Hno.
        induction Hno as [| e' l He' _ IH]; [reflexivity |].
        rewrite filter_cons. destruct (decide _); [contradiction | exact IH]. }
      lia.
  - assert (Hnone : ~ exists e, e ∈ bucketOf (mac.ps m) mac_
                                /\ accepts e (drop 5 mac_) data).
    { intros (e & Hin & Hacc).
      rewrite (verifyNonRaw_accepts _ _ _ e Hno Hin Hacc) in H1.
      discriminate H1. }
    pose proof (verifyRaw_outcome m mac_ data (Raw (mac.ps m))) as H2.
    cbn zeta in H2. destruct H2 as [H2 | H2]; rewrite H2.
    + split; [| left; reflexivity]. split; [| reflexivity]. intros _.
      right. apply (verifyRaw_sound _ _ _ _ H2).
    + split; [| right; reflexivity]. split; [discriminate |].
      intros [Hex | (e & Hin & Hacc)]; [contradiction |].
      rewrite (verifyRaw_accepts m mac_ data _ e Hin Hacc) in H2.
      discriminate H2.
Qed.

End VerifyWithoutLegacy.

Lemma VerifyMAC_without_legacy_witness :
  (value (mac.VerifyMAC 64 (wrap psRawTink)
            [x52; x32; x52; x32; x52; x32; x68] [x68]) = Ok tt
   <-> (exists e, e ∈ bucketOf psRawTink [x52; x32; x52; x32; x52; x32; x68]
                  /\ accepts e [x32; x68] [x68])
       \/ (exists e, e ∈ Raw psRawTink
                     /\ accepts e [x52; x32; x52; x32; x52; x32; x68] [x68]))
  /\ (value (mac.VerifyMAC 64 (wrap psRawTink)
               [x52; x32; x52; x32; x52; x32; x68] [x68]) = Ok tt
      \/ value (mac.VerifyMAC 64 (wrap psRawTink)
                  [x52; x32; x52; x32; x52; x32; x68] [x68])
         = Err mac.errInvalidMAC).
Proof.
  apply (VerifyMAC_without_legacy 64 (wrap psRawTink)
           [x52; x32; x52; x32; x52; x32; x68] [x68]).
  - vm_compute. reflexivity.
  - vm_compute. constructor.
Defined.

(** ** A MAC computed under one primary verifies under another *)

Section Entries.

Variable ps : PrimitiveSet.
Hypothesis wf : WellFormed ps.
Variable e : Entry.
Hypothesis He : e ∈ allEntries ps.

Lemma entry_raw :
  PrefixType e = tinkpb.RAW -> e ∈ Raw ps /\ Prefix e = [].
Proof.
  intros Hraw. split.
  - pose proof He as Hin. unfold allEntries in Hin.
    apply elem_of_app in Hin as [Hin | Hin]; [| exact Hin].
    apply elem_of_concat in Hin as (l & Hin & Hl).
    apply list_elem_of_fmap in Hl as ([k l'] & -> & Hl).
    apply elem_of_map_to_list in Hl.
    destruct (wf_bucket ps wf k l' _ Hl Hin) as [Hne _]. contradiction.
  - rewrite (wf_prefix ps wf _ He), Hraw. reflexivity.
Qed.

Lemma entry_bucket :
  PrefixType e <> tinkpb.RAW ->
  Entries ps !! string_of_list_byte (Prefix e) = Some [e]
  /\ len (Prefix e) = 5.
Proof.
  intros Hraw. split.
  - pose proof He as Hin. unfold allEntries in Hin.
    apply elem_of_app in Hin as [Hin | Hin].
    + apply elem_of_concat in Hin as (l & Hin & Hl).
      apply list_elem_of_fmap in Hl as ([k l'] & -> & Hl).
      apply elem_of_map_to_list in Hl. cbn in Hin.
      destruct (wf_bucket ps wf k l' _ Hl Hin) as [_ <-].
      rewrite Hl. f_equal. apply (bucket_singleton ps wf k); assumption.
    + apply (wf_raw ps wf) in Hin. contradiction.
  - rewrite (wf_prefix ps wf _ He), OutputPrefix_length.
    destruct (decide _); [contradiction | reflexivity].
Qed.

End Entries.

(** The MAC of any entry of a well-formed set verifies. *)
Lemma entry_mac_verifies (uintBits : Z) (m : mac.wrappedMAC) (e : Entry)
    (data tag : bytes) :
  WellFormed (mac.ps m) ->
  e ∈ allEntries (mac.ps m) ->
  accepts e tag (suffixed (PrefixType e) data) ->
  ~ (PrefixType e = tinkpb.LEGACY /\ mac.maxInt uintBits <= len data) ->
  5 < len (Prefix e ++ tag) ->
  (PrefixType e = tinkpb.RAW ->
   Forall (fun e' => PrefixType e' <> tinkpb.LEGACY)
     (bucketOf (mac.ps m) (Prefix e ++ tag))) ->
  value (mac.VerifyMAC uintBits m (Prefix e ++ tag) data) = Ok tt.
Proof.
  intros Hwf Hin Hacc Hb Hlen Hnoleg. unfold accepts in Hacc.
  rewrite VerifyMAC_long_eq by exact Hlen. cbn zeta.
  destruct (decide (PrefixType e = tinkpb.RAW)) as [Hraw | Hraw].
  - destruct (entry_raw _ Hwf e Hin Hraw) as [Hinraw Hprefix].
    specialize (Hnoleg Hraw). rewrite Hprefix in *. cbn [app] in *.
    assert (Hdata : suffixed (PrefixType e) data = data)
      by (unfold suffixed; rewrite Hraw; reflexivity).
    rewrite Hdata in Hacc.
    destruct (verifyNonRaw_no_legacy uintBits m (drop 5 tag) _ data Hnoleg)
      as [-> | ->]; [reflexivity |].
    rewrite (verifyRaw_accepts m tag data _ e Hinraw Hacc). reflexivity.
  - destruct (entry_bucket _ Hwf e Hin Hraw) as [Hbucket Hplen].
    apply (len_length _ 5%nat) in Hplen. unfold bucketOf.
    rewrite take_app_length', drop_app_length' by (symmetry; exact Hplen).
    rewrite Hbucket. cbn [default from_option id].
    rewrite verifyNonRaw_cons by exact Hb. cbn zeta.
    rewrite Hacc. reflexivity.
Qed.

(** X7. A MAC that one wrapped MAC computed is accepted, for the same
    data, by every wrapped MAC over a well-formed primitive set that holds
    the entry it was computed with, whatever that set's primary is -
    provided the primitive satisfies the MAC contract and the MAC has more
    than five bytes (under a RAW entry: and no LEGACY entry is filed under
    its first five bytes). *)
Theorem VerifyMAC_accepts_other_primary (uintBits : Z)
    (m1 m2 : mac.wrappedMAC) (data mac_ : bytes) :
  let p := Primary (mac.ps m1) in
  WellFormed (mac.ps m2) ->
  p ∈ allEntries (mac.ps m2) ->
  MACContract (Primitive p) ->
  value (mac.ComputeMAC uintBits m1 data) = Ok mac_ ->
  5 < len mac_ ->
  (PrefixType p = tinkpb.RAW ->
   Forall (fun e => PrefixType e <> tinkpb.LEGACY)
     (bucketOf (mac.ps m2) mac_)) ->
  value (mac.VerifyMAC uintBits m2 mac_ data) = Ok tt.
Proof.
  intros p Hwf Hin Hcontract Hmac Hlen Hnoleg.
  destruct (ComputeMAC_Ok_inv _ _ _ _ Hmac) as (Hb & tag & Htag & ->).
  fold p in Hb, Htag.
  apply (entry_mac_verifies uintBits m2 p data tag); try assumption.
  apply Hcontract. exact Htag.
Qed.

Lemma tink1_in_psRawTink : tink1 ∈ allEntries psRawTink.
Proof.
  apply (bucket_in_all psRawTink (bucketKey tink1) [tink1]);
    [apply lookup_singleton_eq | left].
Qed.

Lemma VerifyMAC_accepts_other_primary_witness :
  value (mac.VerifyMAC 64 (wrap psRawTink)
           [x01; x01; x02; x03; x04; x54; x31; x68; x69] [x68; x69]) = Ok tt.
Proof.
  apply (VerifyMAC_accepts_other_primary 64 (wrap psTinkRaw) (wrap psRawTink)
           [x68; x69]).
  - exact psRawTink_wf.
  - exact tink1_in_psRawTink.
  - apply echoMAC_contract.
  - vm_compute. reflexivity.
  - vm_compute. reflexivity.
  - discriminate.
Defined.

(** ** wrappedMAC.VerifyMAC: the length bound of the LEGACY path *)

(** X8. When the first entry filed under the first five bytes of the MAC
    is LEGACY and the data has [maxInt] bytes or more, [VerifyMAC] returns
    the data-too-long error after one [LogFailure], without calling any
    primitive. *)
Theorem VerifyMAC_legacy_data_too_long (uintBits : Z) (m : mac.wrappedMAC)
    (mac_ data : bytes) (e : Entry) (rest : list Entry) :
  5 < len mac_ ->
  bucketOf (mac.ps m) mac_ = e :: rest ->
  PrefixType e = tinkpb.LEGACY ->
  mac.maxInt uintBits <= len data ->
  mac.VerifyMAC uintBits m mac_ data
  = (Err mac.errDataTooLong, [LogFailure (mac.wm_verifyLogger m)]).
Proof.
  intros Hlen Hbucket Hleg Hge.
  rewrite VerifyMAC_long_eq by exact Hlen. cbn zeta.
  rewrite Hbucket, verifyNonRaw_cons_too_long by assumption. reflexivity.
Qed.

Lemma VerifyMAC_legacy_data_too_long_witness :
  mac.VerifyMAC 64 (wrap psLegacyPrimary) [x00; x00; x00; x00; x07; x4c]
    (replicate (Z.to_nat (mac.maxInt 64)) x00)
  = (Err mac.errDataTooLong, [LogFailure verifyLogger]).
Proof.
  apply (VerifyMAC_legacy_data_too_long 64 (wrap psLegacyPrimary) _ _
           legacy7 []).
  - vm_compute. reflexivity.
  - vm_compute. reflexivity.
  - reflexivity.
  - rewrite len_replicate, Z2Nat.id; [apply Z.le_refl | rewrite maxInt_64; lia].
Defined.

(** ** wrappedMAC.VerifyMAC: which primitives are called, and with what *)

Section VerifyCalls.

Variable uintBits : Z.
Variable m : mac.wrappedMAC.

Lemma verifyNonRaw_calls (macNoPrefix : bytes) (entries : list Entry)
    (data : bytes) (keyID : Z) (mac' data' : bytes) :
  PrimitiveVerifyMAC keyID mac' data'
    ∈ trace (mac.verifyNonRaw uintBits m macNoPrefix entries data) ->
  mac' = macNoPrefix
  /\ exists e j, e ∈ entries /\ KeyID e = keyID
       /\ (j <= legacyCount entries)%nat /\ data' = data ++ replicate j x00.
Proof.
  revert data. induction entries as [| e rest IH]; intros data.
  - cbn. intros Hin. inversion Hin.
  - destruct (decide (PrefixType e = tinkpb.LEGACY
                      /\ mac.maxInt uintBits <= len data)) as [[Hleg Hge] | Hb].
    + rewrite verifyNonRaw_cons_too_long by assumption. cbn.
      rewrite list_elem_of_singleton. discriminate.
    + rewrite verifyNonRaw_cons by assumption. cbn zeta.
      rewrite legacyCount_cons, suffixed_replicate.
      set (i := (if decide (PrefixType e = tinkpb.LEGACY) then 1 else 0)%nat).
      assert (Hhere : mac' = macNoPrefix /\ keyID = KeyID e
                      /\ data' = data ++ replicate i x00 ->
              mac' = macNoPrefix
              /\ exists e0 j, e0 ∈ e :: rest /\ KeyID e0 = keyID
                   /\ (j <= i + legacyCount rest)%nat
                   /\ data' = data ++ replicate j x00).
      { intros (-> & -> & ->). split; [reflexivity |].
        exists e, i. repeat split; [left | lia]. }
      destruct (tink.VerifyMAC (Primitive e) macNoPrefix _); cbn;
        rewrite !elem_of_cons.
      * intros [[= -> -> ->] | [Hlog | Hnil]];
          [apply Hhere; auto | discriminate Hlog | inversion Hnil].
      * intros [[= -> -> ->] | Hin]; [apply Hhere; auto |].
        destruct (IH _ Hin) as (-> & e' & j & Hin' & Hk & Hj & ->).
        split; [reflexivity |].
        exists e', (i + j)%nat. split; [right; exact Hin' |].
        split; [exact Hk |]. split; [lia |].
        rewrite replicate_add, app_assoc. reflexivity.
Qed.

Lemma verifyRaw_calls_entries (mac_ data : bytes) (entries : list Entry)
    (keyID : Z) (mac' data' : bytes) :
  PrimitiveVerifyMAC keyID mac' data'
    ∈ trace (mac.verifyRaw m mac_ data entries) ->
  mac' = mac_ /\ data' = data /\ exists e, e ∈ entries /\ KeyID e = keyID.
Proof.
  induction entries as [| e rest IH].
  - cbn. intros Hin. inversion Hin.
  - rewrite verifyRaw_cons.
    destruct (tink.VerifyMAC (Primitive e) mac_ data); cbn;
      rewrite !elem_of_cons.
    + intros [[= -> -> ->] | [Hlog | Hnil]];
        [| discriminate Hlog | inversion Hnil].
      repeat split. exists e. split; [left | reflexivity].
    + intros [[= -> -> ->] | Hin].
      * repeat split. exists e. split; [left | reflexivity].
      * destruct (IH Hin) as (-> & -> & e' & Hin' & Hk).
        repeat split. exists e'. split; [right; exact Hin' | exact Hk].
Qed.

(** X9. Every call [VerifyMAC] makes on a primitive is on an entry filed
    under the first five bytes of the MAC, with the MAC without them, or
    on a raw entry, with the whole MAC: no other key of the set is tried.
    The data of the call is the caller's followed by at most one zero byte
    per LEGACY entry of that bucket (for a raw entry: exactly one each). *)
Theorem VerifyMAC_calls (mac_ data : bytes) (keyID : Z) (mac' data' : bytes) :
  PrimitiveVerifyMAC keyID mac' data'
    ∈ trace (mac.VerifyMAC uintBits m mac_ data) ->
  exists e j,
    KeyID e = keyID
    /\ data' = data ++ replicate j x00
    /\ ((e ∈ bucketOf (mac.ps m) mac_ /\ mac' = drop 5 mac_
         /\ (j <= legacyCount (bucketOf (mac.ps m) mac_))%nat)
        \/ (e ∈ Raw (mac.ps m) /\ mac' = mac_
            /\ j = legacyCount (bucketOf (mac.ps m) mac_))).
Proof.
  destruct (Z.le_gt_cases (len mac_) 5) as [Hshort | Hlong].
  - unfold mac.VerifyMAC, cryptofmt.NonRawPrefixSize.
    destruct (Z.leb_spec (len mac_) 5); [| lia]. cbn.
    rewrite list_elem_of_singleton. discriminate.
  - rewrite VerifyMAC_long_eq by lia. cbn zeta.
    assert (Hnonraw : PrimitiveVerifyMAC keyID mac' data'
              ∈ trace (mac.verifyNonRaw uintBits m (drop 5 mac_)
                         (bucketOf (mac.ps m) mac_) data) ->
            exists e j, KeyID e = keyID /\ data' = data ++ replicate j x00
              /\ ((e ∈ bucketOf (mac.ps m) mac_ /\ mac' = drop 5 mac_
                   /\ (j <= legacyCount (bucketOf (mac.ps m) mac_))%nat)
                  \/ (e ∈ Raw (mac.ps m) /\ mac' = mac_
                      /\ j = legacyCount (bucketOf (mac.ps m) mac_)))).
    { intros Hin.
      destruct (verifyNonRaw_calls _ _ _ _ _ _ Hin)
        as (-> & e & j & Hine & Hk & Hj & ->).
      exists e, j. repeat split; [exact Hk | left; repeat split; assumption]. }
    destruct (value (mac.verifyNonRaw _ _ _ _ _)) as [r | d] eqn:Hv;
      cbn [trace snd]; [exact Hnonraw |].
    apply verifyNonRaw_carries in Hv. rewrite carried_replicate in Hv.
    assert (Hraw : PrimitiveVerifyMAC keyID mac' data'
              ∈ trace (mac.verifyRaw m mac_ d (Raw (mac.ps m))) ->
            exists e j, KeyID e = keyID /\ data' = data ++ replicate j x00
              /\ ((e ∈ bucketOf (mac.ps m) mac_ /\ mac' = drop 5 mac_
                   /\ (j <= legacyCount (bucketOf (mac.ps m) mac_))%nat)
                  \/ (e ∈ Raw (mac.ps m) /\ mac' = mac_
                      /\ j = legacyCount (bucketOf (mac.ps m) mac_)))).
    { intros Hin.
      destruct (verifyRaw_calls_entries _ _ _ _ _ _ Hin)
        as (-> & -> & e & Hine & Hk).
      exists e, (legacyCount (bucketOf (mac.ps m) mac_)).
      repeat split; [exact Hk | exact Hv | right; repeat split; assumption]. }
    destruct (value (mac.verifyRaw _ _ _ _)) as [r | u]; cbn [trace snd];
      rewrite ?elem_of_app, ?list_elem_of_singleton.
    + intros [Hin | Hin]; auto.
    + intros [Hin | [Hin | Hin]]; [auto | auto | discriminate Hin].
Qed.

End VerifyCalls.

Lemma VerifyMAC_calls_witness :
  exists e j,
    KeyID e = 9
    /\ [x00] = [] ++ replicate j x00
    /\ ((e ∈ bucketOf psLegacyRaw [x00; x00; x00; x00; x07; xaa]
         /\ [x00; x00; x00; x00; x07; xaa] = [xaa]
         /\ (j <= legacyCount (bucketOf psLegacyRaw
                                 [x00; x00; x00; x00; x07; xaa]))%nat)
        \/ (e ∈ Raw psLegacyRaw
            /\ [x00; x00; x00; x00; x07; xaa] = [x00; x00; x00; x00; x07; xaa]
            /\ j = legacyCount (bucketOf psLegacyRaw
                                  [x00; x00; x00; x00; x07; xaa]))).
Proof.
  apply (VerifyMAC_calls 64 (wrap psLegacyRaw) [x00; x00; x00; x00; x07; xaa]
           [] 9 [x00; x00; x00; x00; x07; xaa] [x00]).
  vm_compute. right. left.
Defined.

(** ** hmacKeyManager: keys it mints pass its own validation *)

Section HmacMinting.

Import hmacpb.

Context `{PK : ProtoMessage HmacKey} `{PF : ProtoMessage HmacKeyFormat}.
Context `{RS : RandomSource}.
Variable HashType_name : Z -> string.
Variable ValidateHMACParams : string -> Z -> Z -> result unit.
Variable NewHMAC : string -> bytes -> Z -> result tink.MAC.

Let validateKey := hmacKeyManager.validateKey HashType_name ValidateHMACParams.
Let validateKeyFormat :=
  hmacKeyManager.validateKeyFormat HashType_name ValidateHMACParams.
Let NewKey := hmacKeyManager.NewKey HashType_name ValidateHMACParams.
Let NewKeyData := hmacKeyManager.NewKeyData HashType_name ValidateHMACParams.
Let DeriveKey := hmacKeyManager.DeriveKey HashType_name ValidateHMACParams.
Let Primitive :=
  hmacKeyManager.Primitive HashType_name ValidateHMACParams NewHMAC.

(** A key at version 0 with the parameters of a validated format and a
    value of the format's size passes [validateKey]. *)
Lemma minted_key_validates (keyFormat : HmacKeyFormat) (keyValue : bytes) :
  validateKeyFormat keyFormat = Ok tt ->
  0 <= KeySize keyFormat < 2 ^ 32 ->
  len keyValue = KeySize keyFormat ->
  validateKey {| Version := 0; Params := Format_Params keyFormat;
                 KeyValue := keyValue |} = Ok tt.
Proof.
  intros Hval Hrange Hlen.
  unfold validateKey, hmacKeyManager.validateKey. cbn.
  unfold uint32. rewrite Hlen, Z.mod_small by exact Hrange. exact Hval.
Qed.

Lemma NewKey_Ok_inv (serializedKeyFormat : bytes) (s : Rand) (key : HmacKey) :
  (NewKey serializedKeyFormat s).1 = Ok key ->
  exists keyFormat,
    hmacKeyManager.parsesTo HashType_name ValidateHMACParams
      serializedKeyFormat keyFormat
    /\ key = {| Version := 0; Params := Format_Params keyFormat;
                KeyValue := (GetRandomBytes (KeySize keyFormat) s).1 |}.
Proof.
  unfold NewKey, hmacKeyManager.NewKey, hmacKeyManager.parsesTo.
  destruct (Z.eqb_spec (len serializedKeyFormat) 0) as [Hz | Hz];
    [discriminate |].
  destruct (Unmarshal serializedKeyFormat) as [keyFormat | e] eqn:Hu;
    [| discriminate].
  destruct (hmacKeyManager.validateKeyFormat _ _ keyFormat) as [[] | e] eqn:Hv;
    [| discriminate].
  destruct (GetRandomBytes (KeySize keyFormat) s) as [kv s'] eqn:Hrand.
  intros [= <-]. exists keyFormat. rewrite Hrand.
  split; [split; [| split; [reflexivity | exact Hv]] | reflexivity].
  intros ->. apply Hz. reflexivity.
Qed.

Lemma DeriveKey_Ok_inv (serializedKeyFormat : bytes) (r : io.Reader)
    (key : HmacKey) :
  (DeriveKey serializedKeyFormat r).1 = Ok key ->
  exists keyFormat,
    hmacKeyManager.parsesTo HashType_name ValidateHMACParams
      serializedKeyFormat keyFormat
    /\ Format_Version keyFormat <= 0
    /\ KeySize keyFormat <= len r
    /\ key = {| Version := 0; Params := Format_Params keyFormat;
                KeyValue := take (Z.to_nat (KeySize keyFormat)) r |}.
Proof.
  unfold DeriveKey, hmacKeyManager.DeriveKey, hmacKeyManager.parsesTo,
    keyset.ValidateKeyVersion, hmacKeyManager.hmacKeyVersion, io.ReadFull.
  destruct (Z.eqb_spec (len serializedKeyFormat) 0) as [Hz | Hz];
    [discriminate |].
  destruct (Unmarshal serializedKeyFormat) as [keyFormat | e] eqn:Hu;
    [| discriminate].
  destruct (hmacKeyManager.validateKeyFormat _ _ keyFormat) as [[] | e] eqn:Hv;
    [| discriminate].
  destruct (Z.ltb_spec 0 (Format_Version keyFormat)); [discriminate |].
  destruct (Z.leb_spec (KeySize keyFormat) (len r)); [| discriminate].
  intros [= <-]. exists keyFormat.
  split; [split; [| split; [reflexivity | exact Hv]] |].
  - intros ->. apply Hz. reflexivity.
  - repeat split; assumption.
Qed.


(** X11. A key returned by [DeriveKey] is at version 0, carries the
    format's parameters and the first [KeySize] bytes of the source, and
    passes [validateKey], for a key size in the range of uint32. *)
Theorem DeriveKey_key_validates (serializedKeyFormat : bytes)
    (r : io.Reader) (key : HmacKey) :
  (forall keyFormat, Unmarshal serializedKeyFormat = Ok keyFormat ->
     0 <= KeySize keyFormat < 2 ^ 32) ->
  (DeriveKey serializedKeyFormat r).1 = Ok key ->
  validateKey key = Ok tt
  /\ Version key = 0
  /\ exists keyFormat,
       Unmarshal serializedKeyFormat = Ok keyFormat
       /\ Params key = Format_Params keyFormat
       /\ KeyValue key = take (Z.to_nat (KeySize keyFormat)) r
       /\ len (KeyValue key) = KeySize keyFormat.
Proof.
  intros Hrange Hder.
  destruct (DeriveKey_Ok_inv _ _ _ Hder)
    as (kf & (Hne & Hparse & Hval) & Hver & Hlen & ->).
  specialize (Hrange kf Hparse).
  assert (Hkv : len (take (Z.to_nat (KeySize kf)) r) = KeySize kf)
    by (unfold len in *; rewrite length_take; lia).
  split; [apply minted_key_validates; assumption |].
  split; [reflexivity |].
  exists kf. repeat split; assumption.
Qed.

(** X12. Every format [DeriveKey] accepts, [NewKey] accepts, and the two
    keys have the same version and parameters. *)
Theorem DeriveKey_implies_NewKey (serializedKeyFormat : bytes)
    (r : io.Reader) (s : Rand) (key : HmacKey) :
  (DeriveKey serializedKeyFormat r).1 = Ok key ->
  exists key',
    (NewKey serializedKeyFormat s).1 = Ok key'
    /\ Version key' = Version key /\ Params key' = Params key.
Proof.
  intros Hder.
  destruct (DeriveKey_Ok_inv _ _ _ Hder)
    as (kf & (Hne & Hparse & Hval) & _ & _ & ->).
  unfold NewKey, hmacKeyManager.NewKey.
  destruct (Z.eqb_spec (len serializedKeyFormat) 0) as [Hz | _];
    [apply len_0_nil in Hz; contradiction |].
  rewrite Hparse, Hval.
  destruct (GetRandomBytes (KeySize kf) s) as [kv s'].
  eexists. repeat split.
Qed.

(** X13. The serialized key [NewKeyData] returns is accepted by
    [Primitive]: when the key [NewKey] minted serializes to bytes that
    parse back to it, [NewKeyData] returns them under the HMAC type URL,
    which [DoesSupport] recognises, as symmetric key material, and
    [Primitive] builds a primitive from them. *)
Theorem NewKeyData_Primitive (serializedKeyFormat : bytes) (s : Rand)
    (key : HmacKey) (serializedKey : bytes) :
  (forall hash k tagSize,
     ValidateHMACParams hash (uint32 (len k)) tagSize = Ok tt ->
     exists hmac, NewHMAC hash k tagSize = Ok hmac) ->
  (forall keyFormat, Unmarshal serializedKeyFormat = Ok keyFormat ->
     0 <= KeySize keyFormat < 2 ^ 32) ->
  (NewKey serializedKeyFormat s).1 = Ok key ->
  Marshal key = Ok serializedKey ->
  Unmarshal serializedKey = Ok key ->
  serializedKey <> [] ->
  (NewKeyData serializedKeyFormat s).1
  = Ok {| tinkpb.KeyData_TypeUrl := hmacKeyManager.hmacTypeURL;
          tinkpb.KeyData_Value := serializedKey;
          tinkpb.KeyData_KeyMaterialType := tinkpb.SYMMETRIC |}
  /\ hmacKeyManager.DoesSupport hmacKeyManager.hmacTypeURL = true
  /\ exists hmac, Primitive serializedKey = Ok hmac.
Proof.
  intros Haccepts Hrange Hnew Hser Hparse Hne.
  split; [| split; [reflexivity |]].
  - unfold NewKeyData, hmacKeyManager.NewKeyData. fold NewKey.
    destruct (NewKey serializedKeyFormat s) as [r s'].
    cbn in Hnew. subst r. rewrite Hser. reflexivity.
  - destruct (NewKey_Ok_inv _ _ _ Hnew) as (kf & (_ & Hpf & Hval) & Hkey).
    specialize (Hrange kf Hpf).
    assert (Hvk : validateKey key = Ok tt).
    { rewrite Hkey. apply minted_key_validates; [assumption | assumption |].
      apply GetRandomBytes_len; lia. }
    assert (Hparams : ValidateHMACParams
                        (HashType_name (GetHash (Params key)))
                        (uint32 (len (KeyValue key)))
                        (GetTagSize (Params key)) = Ok tt).
    { revert Hvk. unfold validateKey, hmacKeyManager.validateKey.
      destruct (keyset.ValidateKeyVersion _ _); [tauto | discriminate]. }
    destruct (Haccepts _ _ _ Hparams) as [hmac Hhmac].
    exists hmac. unfold Primitive, hmacKeyManager.Primitive.
    destruct (Z.eqb_spec (len serializedKey) 0) as [Hz | _];
      [apply len_0_nil in Hz; contradiction |].
    rewrite Hparse. fold validateKey. rewrite Hvk, Hhmac. reflexivity.
Qed.

End HmacMinting.

Lemma fixture_KeySize_range (keyFormat : hmacpb.HmacKeyFormat) :
  Unmarshal serializedHmacKeyFormat = Ok keyFormat ->
  0 <= hmacpb.KeySize keyFormat < 2 ^ 32.
Proof. intros [= <-]. cbn. lia. Qed.


Lemma DeriveKey_key_validates_witness :
  hmacKeyManager.validateKey HashType_name ValidateHMACParams derivedKey = Ok tt
  /\ hmacpb.Version derivedKey = 0
  /\ exists keyFormat,
       Unmarshal serializedHmacKeyFormat = Ok keyFormat
       /\ hmacpb.Params derivedKey = hmacpb.Format_Params keyFormat
       /\ hmacpb.KeyValue derivedKey
          = take (Z.to_nat (hmacpb.KeySize keyFormat)) (replicate 40 x11)
       /\ len (hmacpb.KeyValue derivedKey) = hmacpb.KeySize keyFormat.
Proof.
  apply (DeriveKey_key_validates HashType_name ValidateHMACParams
           serializedHmacKeyFormat (replicate 40 x11) derivedKey
           fixture_KeySize_range).
  reflexivity.
Defined.

Lemma DeriveKey_implies_NewKey_witness :
  exists key',
    (hmacKeyManager.NewKey HashType_name ValidateHMACParams
       serializedHmacKeyFormat tt).1 = Ok key'
    /\ hmacpb.Version key' = hmacpb.Version derivedKey
    /\ hmacpb.Params key' = hmacpb.Params derivedKey.
Proof.
  apply (DeriveKey_implies_NewKey (RS := fixedRandom) HashType_name ValidateHMACParams
           serializedHmacKeyFormat (replicate 40 x11) tt derivedKey).
  reflexivity.
Defined.

Lemma NewKeyData_Primitive_witness :
  (hmacKeyManager.NewKeyData HashType_name ValidateHMACParams
     serializedHmacKeyFormat tt).1
  = Ok {| tinkpb.KeyData_TypeUrl := hmacKeyManager.hmacTypeURL;
          tinkpb.KeyData_Value := serializedMintedKey;
          tinkpb.KeyData_KeyMaterialType := tinkpb.SYMMETRIC |}
  /\ hmacKeyManager.DoesSupport hmacKeyManager.hmacTypeURL = true
  /\ exists hmac,
       hmacKeyManager.Primitive HashType_name ValidateHMACParams NewHMAC
         serializedMintedKey = Ok hmac.
Proof.
  apply (NewKeyData_Primitive (RS := fixedRandom) HashType_name ValidateHMACParams NewHMAC
           serializedHmacKeyFormat tt mintedKey serializedMintedKey
           fixture_NewHMAC_accepts fixture_KeySize_range).
  - reflexivity.
  - reflexivity.
  - reflexivity.
  - discriminate.
Defined.

(** ** hmacKeyManager: formats that are refused *)

Section HmacRejections.

Import hmacpb.

Context `{PK : ProtoMessage HmacKey} `{PF : ProtoMessage HmacKeyFormat}.
Context `{RS : RandomSource}.
Variable HashType_name : Z -> string.
Variable ValidateHMACParams : string -> Z -> Z -> result unit.

Let NewKey := hmacKeyManager.NewKey HashType_name ValidateHMACParams.
Let NewKeyData := hmacKeyManager.NewKeyData HashType_name ValidateHMACParams.
Let DeriveKey := hmacKeyManager.DeriveKey HashType_name ValidateHMACParams.
Let rejectedFormat :=
  hmacKeyManager.rejectedFormat HashType_name ValidateHMACParams.

(** X14. [NewKey] fails exactly on the formats that are empty, do not
    parse, or have parameters [validateKeyFormat] rejects. On such a
    format [NewKey], [NewKeyData] and [DeriveKey] return one and the same
    error, no random byte is drawn and the pseudorandom source is not
    read. *)
Theorem rejected_formats (serializedKeyFormat : bytes) (s : Rand)
    (r : io.Reader) :
  ((exists err, (NewKey serializedKeyFormat s).1 = Err err)
   <-> rejectedFormat serializedKeyFormat)
  /\ (rejectedFormat serializedKeyFormat ->
      exists err,
        NewKey serializedKeyFormat s = (Err err, s)
        /\ NewKeyData serializedKeyFormat s = (Err err, s)
        /\ DeriveKey serializedKeyFormat r = (Err err, r)).
Proof.
  assert (Hrej : rejectedFormat serializedKeyFormat ->
            exists err,
              NewKey serializedKeyFormat s = (Err err, s)
              /\ NewKeyData serializedKeyFormat s = (Err err, s)
              /\ DeriveKey serializedKeyFormat r = (Err err, r)).
  { unfold NewKeyData, hmacKeyManager.NewKeyData. fold NewKey.
    unfold NewKey, DeriveKey, hmacKeyManager.NewKey, hmacKeyManager.DeriveKey.
    intros [-> | [[e He] | (kf & e & Hkf & He)]].
    - eexists. repeat split.
    - destruct (len serializedKeyFormat =? 0); [eexists; repeat split |].
      rewrite He. eexists. repeat split.
    - destruct (len serializedKeyFormat =? 0); [eexists; repeat split |].
      rewrite Hkf, He. eexists. repeat split. }
  split; [| exact Hrej]. split.
  - intros [err Herr]. revert Herr.
    unfold NewKey, hmacKeyManager.NewKey, rejectedFormat,
      hmacKeyManager.rejectedFormat.
    destruct (Z.eqb_spec (len serializedKeyFormat) 0) as [Hz | _];
      [left; apply len_0_nil; exact Hz |].
    destruct (Unmarshal serializedKeyFormat) as [kf | e] eqn:Hu;
      [| right; left; eauto].
    destruct (hmacKeyManager.validateKeyFormat _ _ kf) as [u | e] eqn:Hv;
      [| right; right; eauto].
    destruct (GetRandomBytes (KeySize kf) s). discriminate.
  - intros Hr. destruct (Hrej Hr) as (err & Hnew & _).
    exists err. rewrite Hnew. reflexivity.
Qed.

End HmacRejections.

Lemma rejected_formats_witness :
  exists err,
    hmacKeyManager.NewKey HashType_name ValidateHMACParams [x00; x03; x05; x20] tt
    = (Err err, tt)
    /\ hmacKeyManager.NewKeyData HashType_name ValidateHMACParams
         [x00; x03; x05; x20] tt = (Err err, tt)
    /\ hmacKeyManager.DeriveKey HashType_name ValidateHMACParams
         [x00; x03; x05; x20] (replicate 40 x11) = (Err err, replicate 40 x11).
Proof.
  apply (proj2 (rejected_formats (RS := fixedRandom) HashType_name
                  ValidateHMACParams [x00; x03; x05; x20] tt
                  (replicate 40 x11))).
  right; right. eexists _, _. split; reflexivity.
Defined.

(** ** XChaCha20Poly1305: length bound, layout of the ciphertext, key errors *)


Section XChaChaMore.

Import chacha20poly1305.

Variable uintBits : Z.
Context `{RS : RandomSource}.
Variable NewX : bytes -> result AEAD.

(** X15. [Encrypt] refuses a plaintext longer than [maxInt - 40] bytes
    with the "plaintext too long" error, before building the cipher and
    before drawing the nonce. *)
Theorem Encrypt_plaintext_too_long (x : xchacha.XChaCha20Poly1305)
    (plaintext associatedData : bytes) (s : Rand) :
  xchacha.maxInt uintBits - 24 - 16 < len plaintext ->
  xchacha.Encrypt uintBits NewX x plaintext associatedData s
  = ((Err "xchacha20poly1305: plaintext too long"%string, s), []).
Proof.
  intros Hlen. unfold xchacha.Encrypt, NonceSizeX, xchacha.poly1305TagSize.
  destruct (Z.ltb_spec (xchacha.maxInt uintBits - 24 - 16) (len plaintext));
    [reflexivity | lia].
Qed.


(** X17. A key the cipher refuses: [Encrypt] and [Decrypt] return the
    error of [NewX] as it is, after that one call; [Encrypt] draws no
    nonce, and neither [Seal] nor [Open] is called. *)
Theorem bad_key_error (x : xchacha.XChaCha20Poly1305)
    (text associatedData : bytes) (s : Rand) (err : error) :
  NewX (xchacha.Key x) = Err err ->
  (len text <= xchacha.maxInt uintBits - 24 - 16 ->
   xchacha.Encrypt uintBits NewX x text associatedData s
   = ((Err err, s), [xchacha.CallNewX (xchacha.Key x)]))
  /\ (40 <= len text ->
      xchacha.Decrypt NewX x text associatedData
      = (Err err, [xchacha.CallNewX (xchacha.Key x)])).
Proof.
  intros Hnew. split; intros Hlen.
  - unfold xchacha.Encrypt, xchacha.callNewX, xchacha.poly1305TagSize,
      NonceSizeX.
    destruct (Z.ltb_spec (xchacha.maxInt uintBits - 24 - 16) (len text));
      [lia |].
    unfold bind, emit, ret. cbn [fst snd]. rewrite Hnew. reflexivity.
  - unfold xchacha.Decrypt, xchacha.callNewX, xchacha.poly1305TagSize,
      NonceSizeX.
    destruct (Z.ltb_spec (len text) (24 + 16)); [lia |].
    unfold bind, emit, ret. cbn [fst snd]. rewrite Hnew. reflexivity.
Qed.

(** X18. [Decrypt] returns a plaintext exactly when the ciphertext has at
    least 40 bytes, [NewX] accepts the key, and [Open] returns that
    plaintext for the first 24 bytes as nonce, the rest as ciphertext and
    the caller's associated data; an error of [Open] is returned under
    the prefix "XChaCha20Poly1305.Decrypt: ". *)
Theorem Decrypt_Ok_iff (x : xchacha.XChaCha20Poly1305)
    (ciphertext associatedData plaintext : bytes) :
  (value (xchacha.Decrypt NewX x ciphertext associatedData) = Ok plaintext
   <-> 40 <= len ciphertext
       /\ exists c, NewX (xchacha.Key x) = Ok c
            /\ Open c [] (take 24 ciphertext) (drop 24 ciphertext)
                 associatedData = Ok plaintext)
  /\ (forall c err,
        40 <= len ciphertext -> NewX (xchacha.Key x) = Ok c ->
        Open c [] (take 24 ciphertext) (drop 24 ciphertext) associatedData
        = Err err ->
        value (xchacha.Decrypt NewX x ciphertext associatedData)
        = Err (Errorf "XChaCha20Poly1305.Decrypt: " err)).
Proof.
  unfold xchacha.Decrypt, xchacha.callNewX, xchacha.callOpen,
    xchacha.poly1305TagSize, NonceSizeX.
  change (Z.to_nat 24) with 24%nat.
  destruct (Z.ltb_spec (len ciphertext) (24 + 16)) as [Hshort | Hlong].
  - split.
    + split; [discriminate | intros [Hlen _]; lia].
    + intros c err Hlen. lia.
  - unfold bind, emit, ret, value. cbn [fst snd].
    destruct (NewX (xchacha.Key x)) as [c | e]; cbn [fst snd].
    + split.
      * split.
        -- intros Hok. split; [lia |]. exists c. split; [reflexivity |].
           destruct (Open c _ _ _ _); cbn in Hok; congruence.
        -- intros (_ & c' & [= <-] & Hopen). rewrite Hopen. reflexivity.
      * intros c' err _ [= <-] Hopen. rewrite Hopen. reflexivity.
    + split.
      * split; [discriminate | intros (_ & c & Hc & _); discriminate Hc].
      * intros c err _ Hc. discriminate Hc.
Qed.

End XChaChaMore.

Lemma Encrypt_plaintext_too_long_witness :
  xchacha.Encrypt (RS := fixedRandom) 64 toyNewX {| xchacha.Key := key32 |}
    (replicate (Z.to_nat (mac.maxInt 64)) x00) [x61] tt
  = ((Err "xchacha20poly1305: plaintext too long"%string, tt), []).
Proof.
  apply (Encrypt_plaintext_too_long (RS := fixedRandom) 64 toyNewX).
  rewrite len_replicate, Z2Nat.id by (rewrite maxInt_64; lia).
  unfold xchacha.maxInt. rewrite maxInt_64. lia.
Defined.


Lemma bad_key_error_witness :
  xchacha.Encrypt (RS := fixedRandom) 64 toyNewX
    {| xchacha.Key := [x01; x02; x03] |} [x68; x69] [x61] tt
  = ((Err "chacha20poly1305: bad key length"%string, tt),
     [xchacha.CallNewX [x01; x02; x03]])
  /\ xchacha.Decrypt toyNewX {| xchacha.Key := [x01; x02; x03] |}
       (replicate 40 x00) [x61]
     = (Err "chacha20poly1305: bad key length"%string,
        [xchacha.CallNewX [x01; x02; x03]]).
Proof.
  split.
  - apply (proj1 (bad_key_error (RS := fixedRandom) 64 toyNewX
                    {| xchacha.Key := [x01; x02; x03] |} [x68; x69] [x61] tt
                    _ eq_refl)).
    vm_compute. discriminate.
  - apply (proj2 (bad_key_error (RS := fixedRandom) 64 toyNewX
                    {| xchacha.Key := [x01; x02; x03] |} (replicate 40 x00)
                    [x61] tt _ eq_refl)).
    vm_compute. discriminate.
Defined.

(** ** Key templates: the prefix type does not reach the key format *)

Section TemplatePrefix.

Import tinkerror templates.

Context `{ProtoMessage hpkepb.HpkeKeyFormat}.
Context `{ProtoMessage ecdsapb.EcdsaKeyFormat}.
Context `{ProtoMessage rsppb.RsaSsaPkcs1KeyFormat}.
Context `{ProtoMessage rspsspb.RsaSsaPssKeyFormat}.
Variable hpkePrivateKeyTypeURL : string.

Lemma withPrefix_templateOf (typeURL : string) (r : result bytes)
    (t1 t2 : tinkpb.OutputPrefixType) :
  templateOf typeURL r t2 = withPrefix t2 (templateOf typeURL r t1).
Proof. destruct r; reflexivity. Qed.

Lemma createHPKEKeyTemplate_prefix kem kdf aead t1 t2 :
  createHPKEKeyTemplate hpkePrivateKeyTypeURL kem kdf aead t2
  = withPrefix t2 (createHPKEKeyTemplate hpkePrivateKeyTypeURL kem kdf aead t1).
Proof.
  unfold createHPKEKeyTemplate. cbn zeta. rewrite !factory_steps.
  apply withPrefix_templateOf.
Qed.

Lemma createECDSAKeyTemplate_prefix hashType curve encoding t1 t2 :
  createECDSAKeyTemplate hashType curve encoding t2
  = withPrefix t2 (createECDSAKeyTemplate hashType curve encoding t1).
Proof.
  unfold createECDSAKeyTemplate. cbn zeta. rewrite !factory_steps.
  apply withPrefix_templateOf.
Qed.

Lemma create_RSA_SSA_PKCS1_Template_prefix t1 t2 hashType modulusSizeInBits :
  create_RSA_SSA_PKCS1_Template t2 hashType modulusSizeInBits
  = withPrefix t2 (create_RSA_SSA_PKCS1_Template t1 hashType modulusSizeInBits).
Proof.
  unfold create_RSA_SSA_PKCS1_Template. cbn zeta. rewrite !factory_steps.
  apply withPrefix_templateOf.
Qed.

Lemma create_RSA_SSA_PSS_Template_prefix t1 t2 hashType saltLength
    modulusSizeInBits :
  create_RSA_SSA_PSS_Template t2 hashType saltLength modulusSizeInBits
  = withPrefix t2
      (create_RSA_SSA_PSS_Template t1 hashType saltLength modulusSizeInBits).
Proof.
  unfold create_RSA_SSA_PSS_Template. cbn zeta. rewrite !factory_steps.
  apply withPrefix_templateOf.
Qed.

(** X19. The four factories that take an output prefix type use it for the
    template's prefix type only: called with another prefix type they end
    the process on the same inputs, and otherwise return the same type URL
    and the same serialized format. *)
Theorem template_prefix_independent :
  (forall kem kdf aead t1 t2,
     createHPKEKeyTemplate hpkePrivateKeyTypeURL kem kdf aead t2
     = withPrefix t2
         (createHPKEKeyTemplate hpkePrivateKeyTypeURL kem kdf aead t1))
  /\ (forall hashType curve encoding t1 t2,
      createECDSAKeyTemplate hashType curve encoding t2
      = withPrefix t2 (createECDSAKeyTemplate hashType curve encoding t1))
  /\ (forall t1 t2 hashType modulusSizeInBits,
      create_RSA_SSA_PKCS1_Template t2 hashType modulusSizeInBits
      = withPrefix t2
          (create_RSA_SSA_PKCS1_Template t1 hashType modulusSizeInBits))
  /\ (forall t1 t2 hashType saltLength modulusSizeInBits,
      create_RSA_SSA_PSS_Template t2 hashType saltLength modulusSizeInBits
      = withPrefix t2
          (create_RSA_SSA_PSS_Template t1 hashType saltLength
             modulusSizeInBits)).
Proof.
  repeat split; intros.
  - apply createHPKEKeyTemplate_prefix.
  - apply createECDSAKeyTemplate_prefix.
  - apply create_RSA_SSA_PKCS1_Template_prefix.
  - apply create_RSA_SSA_PSS_Template_prefix.
Qed.

(** X20. Every template without prefix is its prefixed counterpart with
    the prefix type RAW: the five HPKE pairs, the four ECDSA pairs with DER
    encoding, the four RSA pairs and the Ed25519 pair carry the same type
    URL and the same serialized format. *)
Theorem raw_templates_match_prefixed :
  let hpke := hpkePrivateKeyTypeURL in
  DHKEM_P256_HKDF_SHA256_HKDF_SHA256_AES_128_GCM_Raw_Key_Template hpke
  = withPrefix tinkpb.RAW
      (DHKEM_P256_HKDF_SHA256_HKDF_SHA256_AES_128_GCM_Key_Template hpke)
  /\ DHKEM_P256_HKDF_SHA256_HKDF_SHA256_AES_256_GCM_Raw_Key_Template hpke
     = withPrefix tinkpb.RAW
         (DHKEM_P256_HKDF_SHA256_HKDF_SHA256_AES_256_GCM_Key_Template hpke)
  /\ DHKEM_X25519_HKDF_SHA256_HKDF_SHA256_AES_128_GCM_Raw_Key_Template hpke
     = withPrefix tinkpb.RAW
         (DHKEM_X25519_HKDF_SHA256_HKDF_SHA256_AES_128_GCM_Key_Template hpke)
  /\ DHKEM_X25519_HKDF_SHA256_HKDF_SHA256_AES_256_GCM_Raw_Key_Template hpke
     = withPrefix tinkpb.RAW
         (DHKEM_X25519_HKDF_SHA256_HKDF_SHA256_AES_256_GCM_Key_Template hpke)
  /\ DHKEM_X25519_HKDF_SHA256_HKDF_SHA256_CHACHA20_POLY1305_Raw_Key_Template hpke
     = withPrefix tinkpb.RAW
         (DHKEM_X25519_HKDF_SHA256_HKDF_SHA256_CHACHA20_POLY1305_Key_Template
            hpke)
  /\ ECDSAP256KeyWithoutPrefixTemplate
     = withPrefix tinkpb.RAW ECDSAP256KeyTemplate
  /\ ECDSAP384SHA384KeyWithoutPrefixTemplate
     = withPrefix tinkpb.RAW ECDSAP384SHA384KeyTemplate
  /\ ECDSAP384KeyWithoutPrefixTemplate
     = withPrefix tinkpb.RAW ECDSAP384SHA512KeyTemplate
  /\ ECDSAP521KeyWithoutPrefixTemplate
     = withPrefix tinkpb.RAW ECDSAP521KeyTemplate
  /\ RSA_SSA_PKCS1_3072_SHA256_F4_RAW_Key_Template
     = withPrefix tinkpb.RAW RSA_SSA_PKCS1_3072_SHA256_F4_Key_Template
  /\ RSA_SSA_PKCS1_4096_SHA512_F4_RAW_Key_Template
     = withPrefix tinkpb.RAW RSA_SSA_PKCS1_4096_SHA512_F4_Key_Template
  /\ RSA_SSA_PSS_3072_SHA256_32_F4_Raw_Key_Template
     = withPrefix tinkpb.RAW RSA_SSA_PSS_3072_SHA256_32_F4_Key_Template
  /\ RSA_SSA_PSS_4096_SHA512_64_F4_Raw_Key_Template
     = withPrefix tinkpb.RAW RSA_SSA_PSS_4096_SHA512_64_F4_Key_Template
  /\ ED25519KeyWithoutPrefixTemplate
     = withPrefix tinkpb.RAW ED25519KeyTemplate.
Proof.
  cbn zeta. repeat split;
    first [ apply createHPKEKeyTemplate_prefix
          | apply createECDSAKeyTemplate_prefix
          | apply create_RSA_SSA_PKCS1_Template_prefix
          | apply create_RSA_SSA_PSS_Template_prefix ].
Qed.

End TemplatePrefix.
